(** * Rectangularity descriptors (descriptors/rectangularity/rectangularity.py)

    A shallow embedding of the five rectangularity measures and of the
    helpers they are built from, together with the properties the
    specification states about them.

    Conventions of the embedding.
    - Python and NumPy floating-point numbers are read as real numbers
      ([R]); rounding, infinities and NaN are outside the model, except
      for the last lines of the moments method, which are also given in
      binary64 to show what rounding does to a reciprocal.  The two
      faults arithmetic can raise are kept: [math.sqrt] of a negative number
      ([ValueError]) and division by zero ([ZeroDivisionError]; where both
      operands are NumPy scalars Python would instead continue with a
      non-finite value and a warning, the model stops at the same point).
    - An image is a list of rows of 8-bit pixel values.  Images live in a
      store of buffers, since [image.copy()] and [cv.fillConvexPoly] only
      make sense on buffers: a function receives the address of its image.
    - [print] is recorded on an output log.
    - OpenCV, imutils and the repository's own [descriptors.utils.moments]
      are not part of the two source files.  The complicated routines are
      fields of an interface [Env]; the simple ones ([np.sum], slicing,
      [cv.boundingRect]) are written out.  The routines of [Env] are
      functions of their arguments: they read the image they are given and
      write to no buffer, as OpenCV 4 documents for [cv.findContours]. *)

From Stdlib Require Import Floats.
From Stdlib Require Import Reals Lra Lia ZArith List String Bool.
Import ListNotations.

Local Open Scope R_scope.

(** ** Data *)

Definition image := list (list Z).

(** A contour point is [(x, y)]: column first, row second, as in OpenCV. *)
Definition point := (Z * Z)%type.
Definition contour := list point.

(** The keys read from a moment dictionary ([cv.moments] or the repository's
    [moments]). *)
Record Moments := mkMoments {
  m00 : R;
  mu20 : R;
  mu02 : R;
  mu11 : R;
  mu22 : R
}.

(** Result of [cv.minAreaRect]: centre, (width, height), angle. *)
Definition RotatedRect := ((R * R) * (R * R) * R)%type.

Inductive retrieval_mode := RETR_EXTERNAL | RETR_LIST.
Inductive approx_method := CHAIN_APPROX_NONE | CHAIN_APPROX_SIMPLE.

(** ** Python results, the store and the output log *)

Inductive exn := IndexError | ValueError | ZeroDivisionError.

Inductive result (A : Type) :=
| Ret (a : A)
| Raise (e : exn).
Arguments Ret {A} a.
Arguments Raise {A} e.

Definition loc := nat.

Record world := World {
  mem : loc -> image;
  brk : nat;
  stdout : list string
}.

Definition py (A : Type) := world -> result A * world.

Definition ret {A} (a : A) : py A := fun w => (Ret a, w).
Definition raise {A} (e : exn) : py A := fun w => (Raise e, w).

Definition bind {A B} (c : py A) (k : A -> py B) : py B :=
  fun w => match c w with
           | (Ret a, w') => k a w'
           | (Raise e, w') => (Raise e, w')
           end.

Definition rbind {A B} (c : result A) (k : A -> result B) : result B :=
  match c with
  | Ret a => k a
  | Raise e => Raise e
  end.

Definition lift {A} (c : result A) : py A := fun w => (c, w).

Declare Scope py_scope.
Delimit Scope py_scope with py.
Notation "x <- c ;; k" := (bind c (fun x => k))
  (at level 61, c at next level, right associativity) : py_scope.
Notation "' p <- c ;; k" := (bind c (fun x => let p := x in k))
  (at level 61, p pattern, c at next level, right associativity) : py_scope.
Notation "c ;; k" := (bind c (fun _ => k))
  (at level 61, right associativity) : py_scope.

Declare Scope res_scope.
Delimit Scope res_scope with res.
Notation "x <- c ;; k" := (rbind c (fun x => k))
  (at level 61, c at next level, right associativity) : res_scope.

Definition load (l : loc) : py image := fun w => (Ret (mem w l), w).

Definition store (l : loc) (img : image) : py unit :=
  fun w => (Ret tt, World (fun k => if Nat.eqb k l then img else mem w k)
                          (brk w) (stdout w)).

Definition alloc (img : image) : py loc :=
  fun w => (Ret (brk w),
            World (fun k => if Nat.eqb k (brk w) then img else mem w k)
                  (S (brk w)) (stdout w)).

Definition print (s : string) : py unit :=
  fun w => (Ret tt, World (mem w) (brk w) (stdout w ++ [s])).

(** ** Arithmetic that can fail *)

(** [x / y] *)
Definition pdiv (x y : R) : result R :=
  if Req_dec_T y 0 then Raise ZeroDivisionError else Ret (x / y).

(** [math.sqrt(x)] *)
Definition msqrt (x : R) : result R :=
  if Rlt_dec x 0 then Raise ValueError else Ret (sqrt x).

(** [x < y] as a Python truth value *)
Definition ltb (x y : R) : bool := if Rlt_dec x y then true else false.

(** ** NumPy: sum and basic slicing *)

Definition sumZ (l : list Z) : Z := fold_right Z.add 0%Z l.

(** [np.sum(image)]: the sum of the pixel values. *)
Definition np_sum (img : image) : Z := sumZ (map sumZ img).

(** A slice bound [i] of a sequence of length [n], as Python normalises it. *)
Definition slice_index (n i : Z) : Z :=
  if (i <? 0)%Z then Z.max 0 (i + n) else Z.min i n.

(** [l[lo:hi]] *)
Definition slice {A} (l : list A) (lo hi : Z) : list A :=
  let n := Z.of_nat (List.length l) in
  let s := slice_index n lo in
  let e := slice_index n hi in
  firstn (Z.to_nat (e - s)) (skipn (Z.to_nat s) l).

(** [image[r0:r1, c0:c1]]: rows first, columns second. *)
Definition slice2 (img : image) (r0 r1 c0 c1 : Z) : image :=
  map (fun row => slice row c0 c1) (slice img r0 r1).

(** ** OpenCV: the bounding rectangle of an integer point set

    [cv.boundingRect] returns [(x, y, w, h)] with [(x, y)] the least column
    and row of the points and [w], [h] the extents counted in pixels. *)

Definition minZ (l : list Z) : Z :=
  match l with
  | [] => 0%Z
  | z :: zs => fold_right Z.min z zs
  end.

Definition maxZ (l : list Z) : Z :=
  match l with
  | [] => 0%Z
  | z :: zs => fold_right Z.max z zs
  end.

Definition boundingRect (cnt : contour) : Z * Z * Z * Z :=
  match cnt with
  | [] => (0, 0, 0, 0)%Z
  | _ =>
    let xs := map fst cnt in
    let ys := map snd cnt in
    (minZ xs, minZ ys, maxZ xs - minZ xs + 1, maxZ ys - minZ ys + 1)%Z
  end.

(** ** OpenCV: painting a set of pixels

    [cv.fillConvexPoly(image, box, colour)] overwrites, in place, the pixels
    the polygon covers; which pixels those are is the rasteriser's business
    ([covered row column]). *)

Fixpoint paint_row (covered : Z -> bool) (colour : Z) (c : Z) (row : list Z)
  : list Z :=
  match row with
  | [] => []
  | p :: ps =>
    (if covered c then colour else p) :: paint_row covered colour (c + 1)%Z ps
  end.

Fixpoint paint_rows (covered : Z -> Z -> bool) (colour : Z) (r : Z)
  (rows : image) : image :=
  match rows with
  | [] => []
  | row :: rest =>
    paint_row (covered r) colour 0%Z row
      :: paint_rows covered colour (r + 1)%Z rest
  end.

Definition paint (covered : Z -> Z -> bool) (colour : Z) (img : image)
  : image :=
  paint_rows covered colour 0%Z img.

(** ** The routines taken as given *)

Record Env := mkEnv {
  (** [cv.findContours(image, mode, method)[0]]: the contours found. *)
  findContours : image -> retrieval_mode -> approx_method -> list contour;
  (** [cv.moments(cnt)] *)
  cv_moments : contour -> Moments;
  (** [cv.arcLength(cnt, True)] *)
  arcLength : contour -> R;
  (** [cv.minAreaRect(cnt)] *)
  minAreaRect : contour -> RotatedRect;
  (** [cv.boxPoints(rect)] *)
  boxPoints : RotatedRect -> list (R * R);
  (** [np.int0] on one coordinate *)
  int0 : R -> Z;
  (** the pixels [cv.fillConvexPoly] paints for a polygon: row, column *)
  polygon : list point -> Z -> Z -> bool;
  (** [imutils.rotate(image, angle)]: a new image of the same size *)
  rotate : image -> Z -> image;
  (** [descriptors.utils.moments.moments(image)] *)
  moments : image -> Moments
}.

(** ** rectangularity.py *)

Section Source.

Variable env : Env.

(** [get_sides_based_on_moments(M)] *)
Definition get_sides_based_on_moments (M : Moments) : result (R * R) :=
  if Req_dec_T (m00 M) 0 then Ret (0, 0)
  else
    (d1 <- msqrt ((mu20 M - mu02 M) ^ 2 + 4 * mu11 M ^ 2) ;;
     q1 <- pdiv (6 * (mu20 M + mu02 M + d1)) (m00 M) ;;
     a <- msqrt q1 ;;
     d2 <- msqrt ((mu20 M - mu02 M) ^ 2 + 4 * mu11 M ^ 2) ;;
     q2 <- pdiv (6 * (mu20 M + mu02 M - d2)) (m00 M) ;;
     b <- msqrt q2 ;;
     Ret (a, b))%res.

(** [get_contour(image, mode, method)] *)
Definition get_contour (image : loc) (mode : retrieval_mode)
  (method : approx_method) : py contour :=
  (img <- load image ;;
   let contours := findContours env img mode method in
   (if (1 <? List.length contours)%nat
    then print "Found more than one blob."
    else ret tt) ;;
   match contours with
   | [] => raise IndexError
   | cnt :: _ => ret cnt
   end)%py.

(** [image.copy()] *)
Definition copy (image : loc) : py loc :=
  (img <- load image ;; alloc img)%py.

(** [cv.fillConvexPoly(image, box, colour)] *)
Definition fillConvexPoly (image : loc) (box : list point) (colour : Z)
  : py unit :=
  (img <- load image ;; store image (paint (polygon env box) colour img))%py.

(** [get_mbr_areas(image)] *)
Definition get_mbr_areas (image : loc) : py (Z * Z) :=
  (cnt <- get_contour image RETR_EXTERNAL CHAIN_APPROX_SIMPLE ;;
   let rect := minAreaRect env cnt in
   let box := boxPoints env rect in
   let box := map (fun p => (int0 env (fst p), int0 env (snd p))) box in
   img <- load image ;;
   let region_area := np_sum img in
   image <- copy image ;;
   fillConvexPoly image box 1 ;;
   img <- load image ;;
   let mbr_area := np_sum img in
   ret (region_area, mbr_area))%py.

(** Lines 137-138 and 168-169:
    [x, y, w, h = cv.boundingRect(cnt); box_image = image[x:w, y:h]]. *)
Definition box_image (img : image) (cnt : contour) : image :=
  let '(x, y, w, h) := boundingRect cnt in
  slice2 img x w y h.

(** [get_rectangular_discrepancy_descriptor(image)] *)
Definition get_rectangular_discrepancy_descriptor (image : loc) : py R :=
  (cnt <- get_contour image RETR_EXTERNAL CHAIN_APPROX_SIMPLE ;;
   let M := cv_moments env cnt in
   ab <- lift (get_sides_based_on_moments M) ;;
   let a := fst ab in
   let b := snd ab in
   img <- load image ;;
   let A1 := IZR (np_sum img) in
   let A2 := IZR (np_sum (box_image img cnt)) in
   let A3 := a * b in
   let R_ := A3 - A2 in
   let D := A1 - A2 in
   let B := A3 in
   if Req_dec_T B 0 then ret 0
   else
     q <- lift (pdiv (R_ + D) B) ;;
     let R_D := Rabs (1 - q) in
     if Rgt_dec R_D 1 then ret 1 else ret R_D)%py.

(** [get_robust_mbr_discrepancy(image)] *)
Definition get_robust_mbr_discrepancy (image : loc) : py R :=
  (cnt <- get_contour image RETR_EXTERNAL CHAIN_APPROX_SIMPLE ;;
   areas <- get_mbr_areas image ;;
   let region_area := fst areas in
   let mbr_area := snd areas in
   let M := cv_moments env cnt in
   ab <- lift (get_sides_based_on_moments M) ;;
   let a := fst ab in
   let b := snd ab in
   img <- load image ;;
   let A1 := IZR region_area in
   let A2 := IZR (np_sum (box_image img cnt)) in
   let A3 := a * b in
   let R_ := A3 - A2 in
   let D := A1 - A2 in
   let I := IZR mbr_area in
   q <- lift (pdiv (R_ + D) I) ;;
   let R_R := Rabs (1 - q) in
   if Rgt_dec R_R 1 then ret 1 else ret R_R)%py.

(** The two candidate sides of the agreement method (lines 70-71). *)
Definition a2_1 (A P : R) : result R :=
  (s <- msqrt (Rabs (P ^ 2 - 16 * A)) ;; Ret ((P + s) / 4))%res.

Definition a2_2 (A P : R) : result R :=
  (s <- msqrt (Rabs (P ^ 2 - 16 * A)) ;; Ret ((P - s) / 4))%res.

(** Lines 70-82 of [rectangularity]: the agreement score from the moment
    sides [a1], [b1], the region area [A] and the perimeter [P]. *)
Definition agreement_score (a1 b1 A P : R) : result R :=
  (r1 <- a2_1 A P ;;
   r2 <- a2_2 A P ;;
   if ltb r1 0 || ltb r2 0 then Ret 0
   else
     let a2 := if Rgt_dec r1 r2 then r1 else r2 in
     b2 <- pdiv A a2 ;;
     t1 <- pdiv (Rabs (a1 - a2)) (a1 + a2) ;;
     t2 <- pdiv (Rabs (b1 - b2)) (b1 + b2) ;;
     let R_ := t1 + t2 in
     let R_A := 1 - R_ / 2 in
     Ret R_A)%res.

(** Lines 89-94 of [rectangularity]: the moments score from [mu22], [m00]. *)
Definition moments_score (m : Moments) : result R :=
  (R_M <- pdiv (144 * mu22 m) (m00 m ^ 3) ;;
   if Rle_dec R_M 1 then Ret R_M else pdiv 1 R_M)%res.

(** The same lines in binary64, the arithmetic of Python's [float]: every
    operation rounds to nearest.  The power [m00 ** 3] is written as a
    product, which is the same number whenever the cube is representable. *)
Definition moments_score_binary64 (mu22 m00 : float) : float :=
  let R_M := (144 * mu22 / (m00 * m00 * m00))%float in
  if (R_M <=? 1)%float then R_M else (1 / R_M)%float.

Definition is_mbr (method : string) : bool :=
  ((method =? "r_b") || (method =? "Minimum Bounding Rectangle (MBR)")
   || (method =? "mbr"))%string.

Definition is_r_d (method : string) : bool :=
  ((method =? "r_d") || (method =? "Rectangular Discrepancy"))%string.

Definition is_r_r (method : string) : bool :=
  ((method =? "r_r") || (method =? "Robust MBR"))%string.

Definition is_r_a (method : string) : bool :=
  ((method =? "r_a") || (method =? "Agreement method"))%string.

Definition is_r_m (method : string) : bool :=
  ((method =? "r_m") || (method =? "Moments method"))%string.

(** [rectangularity(image, method)]; [None] is Python's [None]. *)
Definition rectangularity (image : loc) (method : string) : py (option R) :=
  (if is_mbr method then
     areas <- get_mbr_areas image ;;
     let region_area := fst areas in
     let mbr_area := snd areas in
     R_B <- lift (pdiv (IZR region_area) (IZR mbr_area)) ;;
     ret (Some R_B)
   else if is_r_d method then
     img <- load image ;;
     rotated_image <- alloc (rotate env img 45) ;;
     straight_image_descriptor <-
       get_rectangular_discrepancy_descriptor image ;;
     rotated_image_descriptor <-
       get_rectangular_discrepancy_descriptor rotated_image ;;
     if Rgt_dec straight_image_descriptor rotated_image_descriptor
     then ret (Some straight_image_descriptor)
     else ret (Some rotated_image_descriptor)
   else if is_r_r method then
     img <- load image ;;
     rotated_image <- alloc (rotate env img 45) ;;
     straight_image_descriptor <- get_robust_mbr_discrepancy image ;;
     rotated_image_descriptor <- get_robust_mbr_discrepancy rotated_image ;;
     if Rgt_dec straight_image_descriptor rotated_image_descriptor
     then ret (Some straight_image_descriptor)
     else ret (Some rotated_image_descriptor)
   else if is_r_a method then
     cnt <- get_contour image RETR_EXTERNAL CHAIN_APPROX_SIMPLE ;;
     let M := cv_moments env cnt in
     ab <- lift (get_sides_based_on_moments M) ;;
     let a1 := fst ab in
     let b1 := snd ab in
     img <- load image ;;
     let A := IZR (np_sum img) in
     let P := arcLength env cnt in
     R_A <- lift (agreement_score a1 b1 A P) ;;
     ret (Some R_A)
   else if is_r_m method then
     img <- load image ;;
     let m := moments env img in
     R_M <- lift (moments_score m) ;;
     ret (Some R_M)
   else
     print "Wrong method." ;;
     ret None)%py.

End Source.

(** * Notions used in the statements *)

(** The method names [rectangularity] knows. *)
Definition recognised (method : string) : bool :=
  is_mbr method || is_r_d method || is_r_r method || is_r_a method
  || is_r_m method.

(** The methods that start by extracting a contour. *)
Definition contour_based (method : string) : bool :=
  is_mbr method || is_r_d method || is_r_r method || is_r_a method.

(** Every pixel of the mask is zero. *)
Definition no_foreground (img : image) : bool :=
  forallb (forallb (Z.eqb 0)) img.

(** Every pixel of the mask is 0 or 1. *)
Definition zero_one (img : image) : bool :=
  forallb (forallb (fun p => (p =? 0)%Z || (p =? 1)%Z)) img.

(** The inner square root of [get_sides_based_on_moments]. *)
Definition discriminant (M : Moments) : R :=
  sqrt ((mu20 M - mu02 M) ^ 2 + 4 * mu11 M ^ 2).

(** The two candidate sides of the agreement method, as real numbers. *)
Definition root_plus (A P : R) : R := (P + sqrt (Rabs (P ^ 2 - 16 * A))) / 4.
Definition root_minus (A P : R) : R := (P - sqrt (Rabs (P ^ 2 - 16 * A))) / 4.

(** The pixels of [img] inside the bounding rectangle [(x, y, w, h)] of the
    contour, as the specification describes the clipped region: rows
    [y .. y + h - 1], columns [x .. x + w - 1]. *)
Definition bounding_box_block (img : image) (cnt : contour) : image :=
  let '(x, y, w, h) := boundingRect cnt in
  slice2 img y (y + h) x (x + w).

(** The integer corner points computed in [get_mbr_areas]. *)
Definition mbr_box (env : Env) (cnt : contour) : list point :=
  map (fun p => (int0 env (fst p), int0 env (snd p)))
      (boxPoints env (minAreaRect env cnt)).

(** The body shared by the branches "r_d" and "r_r" of [rectangularity],
    for a per-orientation descriptor. *)
Definition two_orientations (env : Env) (descriptor : loc -> py R)
  (image : loc) : py (option R) :=
  (img <- load image ;;
   rotated_image <- alloc (rotate env img 45) ;;
   straight_image_descriptor <- descriptor image ;;
   rotated_image_descriptor <- descriptor rotated_image ;;
   if Rgt_dec straight_image_descriptor rotated_image_descriptor
   then ret (Some straight_image_descriptor)
   else ret (Some rotated_image_descriptor))%py.

(** The per-orientation descriptor a method name selects. *)
Definition orientation_descriptor (env : Env) (method : string)
  : loc -> py R :=
  if is_r_d method then get_rectangular_discrepancy_descriptor env
  else get_robust_mbr_discrepancy env.

(** The store right after the rotated copy has been made. *)
Definition with_rotated (env : Env) (image : loc) (w : world) : world :=
  snd (alloc (rotate env (mem w image) 45) w).

(** [w'] has every buffer of [w], unchanged, and possibly new ones. *)
Definition extends (w w' : world) : Prop :=
  (brk w <= brk w')%nat /\ forall k, (k < brk w)%nat -> mem w' k = mem w k.

(** A computation that leaves every existing buffer as it found it. *)
Definition framed {A} (c : py A) : Prop := forall w, extends w (snd (c w)).

(** * Region moments *)

Fixpoint row_foreground (r c : Z) (row : list Z) : list point :=
  match row with
  | [] => []
  | p :: ps =>
    (if (p =? 0)%Z then [] else [(c, r)]) ++ row_foreground r (c + 1)%Z ps
  end.

Fixpoint rows_foreground (r : Z) (rows : image) : list point :=
  match rows with
  | [] => []
  | row :: rest => row_foreground r 0%Z row ++ rows_foreground (r + 1)%Z rest
  end.

(** The foreground pixels, as [(x, y)], in row-major order. *)
Definition foreground (img : image) : list point := rows_foreground 0%Z img.

Definition sumR (l : list R) : R := fold_right Rplus 0 l.

(** Modelled from the spec: the raw moment [m_pq] of
    [descriptors.utils.moments.moments], which is not among the source
    files: the sum of [x^p * y^q] over the foreground pixels. *)
Definition raw_moment (p q : nat) (pts : list point) : R :=
  sumR (map (fun pt => IZR (fst pt) ^ p * IZR (snd pt) ^ q) pts).

(** Modelled from the spec: the central moment [mu_pq] of
    [descriptors.utils.moments.moments], taken about the centroid
    [(m10 / m00, m01 / m00)]. *)
Definition central_moment (p q : nat) (pts : list point) : R :=
  let xbar := raw_moment 1 0 pts / raw_moment 0 0 pts in
  let ybar := raw_moment 0 1 pts / raw_moment 0 0 pts in
  sumR (map (fun pt => (IZR (fst pt) - xbar) ^ p * (IZR (snd pt) - ybar) ^ q)
            pts).

(** Modelled from the spec: [descriptors.utils.moments.moments(image)],
    imported by rectangularity.py but not among the source files.  The
    specification describes its result as the raw and central moments of
    the mask, with [m00] the foreground pixel count. *)
Definition region_moments (img : image) : Moments :=
  let pts := foreground img in
  mkMoments (raw_moment 0 0 pts) (central_moment 2 0 pts)
            (central_moment 0 2 pts) (central_moment 1 1 pts)
            (central_moment 2 2 pts).

(** * Masks and moment dictionaries used as examples *)

(** A 3 x 3 mask whose only foreground pixel is the centre; its contour is
    the single point [(1, 1)]. *)
Definition centre_dot : image := [[0; 0; 0]; [0; 1; 0]; [0; 0; 0]]%Z.

(** A 3 x 3 mask whose only foreground pixel, the centre, has the value 255:
    non-zero, hence foreground. *)
Definition bright_dot : image := [[0; 0; 0]; [0; 255; 0]; [0; 0; 0]]%Z.

(** A 3 x 3 mask without foreground. *)
Definition blank : image := [[0; 0; 0]; [0; 0; 0]; [0; 0; 0]]%Z.

(** Four foreground pixels at the corners of a 3 x 3 mask: [m00 = 4],
    [mu22 = 4], raw value 9. *)
Definition four_corners : image := [[1; 0; 1]; [0; 0; 0]; [1; 0; 1]]%Z.

Definition blank_row9 : list Z := [0; 0; 0; 0; 0; 0; 0; 0; 0]%Z.

(** Four foreground pixels at the corners of a 4 x 4 mask: [m00 = 4],
    [mu22 = 20.25], raw value 45.5625. *)
Definition wide_corners : image :=
  [[1; 0; 0; 1]; [0; 0; 0; 0]; [0; 0; 0; 0]; [1; 0; 0; 1]]%Z.

(** A 9 x 9 mask without foreground. *)
Definition blank9 : image :=
  [blank_row9; blank_row9; blank_row9; blank_row9; blank_row9;
   blank_row9; blank_row9; blank_row9; blank_row9].

(** A 9 x 9 mask whose only foreground pixel is the top-left corner.
    Turned by 45 degrees about the centre [(4, 4)], the corner lands
    outside the frame and the rotated mask is blank. *)
Definition corner_dot : image :=
  [1; 0; 0; 0; 0; 0; 0; 0; 0]%Z
  :: [blank_row9; blank_row9; blank_row9; blank_row9;
      blank_row9; blank_row9; blank_row9; blank_row9].

(** The moments of a filled 4 x 3 rectangle give back its sides. *)
Definition rectangle_4x3 : Moments := mkMoments 12 16 9 0 0.

(** * OpenCV on a mask with a single foreground pixel

    The answers OpenCV gives on a mask whose foreground is one pixel: the
    contour is that pixel, its polygon has no area and no length, its
    minimum-area rectangle is the pixel itself, and filling that rectangle
    paints the pixel.  [rot] stands for [imutils.rotate]. *)

Definition first_pixel (img : image) : option point :=
  match foreground img with
  | [] => None
  | pt :: _ => Some pt
  end.

(** Truncation towards zero. *)
Definition trunc (x : R) : Z :=
  if Rlt_dec x 0 then (- Int_part (- x))%Z else Int_part x.

Definition single_pixel_env (rot : image -> Z -> image) : Env := {|
  findContours := fun img _ _ =>
    match first_pixel img with
    | None => []
    | Some pt => [[pt]]
    end;
  cv_moments := fun _ => mkMoments 0 0 0 0 0;
  arcLength := fun _ => 0;
  minAreaRect := fun cnt =>
    match cnt with
    | [] => ((0, 0), (0, 0), 0)
    | pt :: _ => ((IZR (fst pt), IZR (snd pt)), (0, 0), 0)
    end;
  boxPoints := fun rect =>
    let '((cx, cy), (width, height), _) := rect in
    [(cx - width / 2, cy + height / 2); (cx - width / 2, cy - height / 2);
     (cx + width / 2, cy - height / 2); (cx + width / 2, cy + height / 2)];
  int0 := trunc;
  polygon := fun box r c =>
    existsb (fun pt => (fst pt =? c)%Z && (snd pt =? r)%Z) box;
  rotate := rot;
  moments := region_moments
|}.

(** A store whose only buffer, at address 0, holds [img]. *)
Definition world_with (img : image) : world :=
  World (fun _ => img) 1%nat [].

(** A rotation that gives back the mask it was given, as turning
    [centre_dot] about its centre pixel does. *)
Definition no_rotation : image -> Z -> image := fun img _ => img.

(** A rotation after which nothing is left in the 9 x 9 frame, as turning
    [corner_dot] by 45 degrees does. *)
Definition out_of_frame : image -> Z -> image := fun _ _ => blank9.

(** * plot_rectangularity.py *)

(** The method names the plotting script passes to [rectangularity]
    (lines 9-13). *)
Definition methods : list string :=
  ["Minimum Bounding Rectangle (MBR)"; "Rectangular Discrepancy";
   "Robust MBR"; "Agreement method"; "Moments method"]%string.

(** * Further notions *)

(** Every pixel is non-negative, as 8-bit values are. *)
Definition nonneg_pixels (img : image) : bool :=
  forallb (forallb (fun p => (0 <=? p)%Z)) img.

(** The moments of a filled rectangle of sides [w] and [h] lying along the
    axes: area, second-order central moments and [mu22]. *)
Definition rectangle_moments (w h : R) : Moments :=
  mkMoments (w * h) (w ^ 3 * h / 12) (w * h ^ 3 / 12) 0
            (w ^ 3 * h ^ 3 / 144).

(** The two lines the module prints. *)
Definition blob_message : string := "Found more than one blob.".
Definition wrong_method_message : string := "Wrong method.".

(** A computation that only appends the module's two messages to the
    output. *)
Definition logs_only {A} (c : py A) : Prop :=
  forall w, exists added,
    stdout (snd (c w)) = stdout w ++ added /\
    Forall (fun s => s = blob_message \/ s = wrong_method_message) added.

(** A computation that neither writes nor allocates. *)
Definition reads_only {A} (c : py A) : Prop :=
  forall w, mem (snd (c w)) = mem w /\ brk (snd (c w)) = brk w.

(** Two names of one method. *)
Definition same_method (m m' : string) : bool :=
  is_mbr m && is_mbr m' || is_r_d m && is_r_d m' || is_r_r m && is_r_r m'
  || is_r_a m && is_r_a m' || is_r_m m && is_r_m m'.

(** Which branches of [rectangularity] a name selects: MBR, discrepancy,
    robust MBR, agreement, moments. *)
Definition branches (m : string) : list bool :=
  [is_mbr m; is_r_d m; is_r_r m; is_r_a m; is_r_m m].

(** Numbers no region has as moments, [mu11^2 > mu20 * mu02]: the second
    square root of [get_sides_based_on_moments] is refused. *)
Definition inconsistent_moments : Moments := mkMoments 1 1 1 2 0.

(** A 1 x 3 mask with two separate foreground pixels. *)
Definition two_dots : image := [[1; 0; 1]]%Z.

(** A 7 x 6 mask holding a filled block 5 pixels wide and 4 high, with a
    margin of one pixel.  Its outer contour runs through the centres of the
    corner pixels and encloses a 4 x 3 rectangle. *)
Definition block : image :=
  [[0; 0; 0; 0; 0; 0; 0];
   [0; 1; 1; 1; 1; 1; 0];
   [0; 1; 1; 1; 1; 1; 0];
   [0; 1; 1; 1; 1; 1; 0];
   [0; 1; 1; 1; 1; 1; 0];
   [0; 0; 0; 0; 0; 0; 0]]%Z.

(** OpenCV's answers on [two_dots]: two contours of one point each, the
    one found last in the scan coming first. *)
Definition two_dots_env : Env := {|
  findContours := fun _ _ _ => [[(2, 0)%Z]; [(0, 0)%Z]];
  cv_moments := cv_moments (single_pixel_env no_rotation);
  arcLength := arcLength (single_pixel_env no_rotation);
  minAreaRect := minAreaRect (single_pixel_env no_rotation);
  boxPoints := boxPoints (single_pixel_env no_rotation);
  int0 := trunc;
  polygon := polygon (single_pixel_env no_rotation);
  rotate := no_rotation;
  moments := region_moments
|}.

Definition block_contour : contour := [(1, 1); (1, 4); (5, 4); (5, 1)]%Z.

(** OpenCV's answers on [block]: the contour above, the moments of the
    4 x 3 rectangle it encloses and its perimeter 14.  The other routines
    are those of [single_pixel_env] and are not consulted on [block]. *)
Definition block_env : Env := {|
  findContours := fun _ _ _ => [block_contour];
  cv_moments := fun _ => rectangle_4x3;
  arcLength := fun _ => 14;
  minAreaRect := minAreaRect (single_pixel_env no_rotation);
  boxPoints := boxPoints (single_pixel_env no_rotation);
  int0 := trunc;
  polygon := polygon (single_pixel_env no_rotation);
  rotate := no_rotation;
  moments := region_moments
|}.

(** * Properties *)

(** ** Arithmetic facts *)

Lemma msqrt_defined (x : R) : 0 <= x -> msqrt x = Ret (sqrt x).
Proof.
  intro Hx. unfold msqrt. destruct (Rlt_dec x 0) as [Hneg | _]; [lra | reflexivity].
Qed.

Lemma msqrt_inv (x r : R) : msqrt x = Ret r -> 0 <= x /\ r = sqrt x.
Proof.
  unfold msqrt. destruct (Rlt_dec x 0) as [Hneg | Hpos]; intro H.
  - discriminate H.
  - injection H as <-. split; [lra | reflexivity].
Qed.

Lemma pdiv_defined (x y : R) : y <> 0 -> pdiv x y = Ret (x / y).
Proof.
  intro Hy. unfold pdiv. destruct (Req_dec_T y 0) as [E | _]; [contradiction | reflexivity].
Qed.

Lemma sqrt_of_square (x : R) : 0 <= x -> sqrt (x * x) = x.
Proof. intro Hx. apply sqrt_square; assumption. Qed.

Lemma ltb_true (x y : R) : x < y -> ltb x y = true.
Proof. intro H. unfold ltb. destruct (Rlt_dec x y); [reflexivity | contradiction]. Qed.

Lemma ltb_false (x y : R) : y <= x -> ltb x y = false.
Proof. intro H. unfold ltb. destruct (Rlt_dec x y); [lra | reflexivity]. Qed.

(** ** The sides estimated from moments *)

Lemma radicand_nonneg (M : Moments) :
  0 <= (mu20 M - mu02 M) ^ 2 + 4 * mu11 M ^ 2.
Proof.
  pose proof (pow2_ge_0 (mu20 M - mu02 M)).
  pose proof (pow2_ge_0 (mu11 M)).
  lra.
Qed.

(** What [get_sides_based_on_moments] computes when [m00] is not zero and
    no square root is refused. *)
Lemma get_sides_inv (M : Moments) (a b : R) :
  m00 M <> 0 ->
  get_sides_based_on_moments M = Ret (a, b) ->
  let qa := 6 * (mu20 M + mu02 M + discriminant M) / m00 M in
  let qb := 6 * (mu20 M + mu02 M - discriminant M) / m00 M in
  0 <= qa /\ 0 <= qb /\ a = sqrt qa /\ b = sqrt qb.
Proof.
  intros Hm H. unfold get_sides_based_on_moments in H.
  destruct (Req_dec_T (m00 M) 0) as [E | _]; [contradiction |].
  rewrite (msqrt_defined _ (radicand_nonneg M)) in H. cbn [rbind] in H.
  rewrite (pdiv_defined _ _ Hm) in H. cbn [rbind] in H.
  fold (discriminant M) in H.
  destruct (msqrt (6 * (mu20 M + mu02 M + discriminant M) / m00 M)) as [ra | e] eqn:Ea;
    cbn [rbind] in H; [| discriminate H].
  rewrite (pdiv_defined _ _ Hm) in H. cbn [rbind] in H.
  destruct (msqrt (6 * (mu20 M + mu02 M - discriminant M) / m00 M)) as [rb | e] eqn:Eb;
    cbn [rbind] in H; [| discriminate H].
  injection H as <- <-.
  apply msqrt_inv in Ea. apply msqrt_inv in Eb.
  cbv zeta. tauto.
Qed.

Lemma sides_for_area_zero (M : Moments) :
  m00 M = 0 -> get_sides_based_on_moments M = Ret (0, 0).
Proof.
  intro E. unfold get_sides_based_on_moments.
  destruct (Req_dec_T (m00 M) 0); [reflexivity | contradiction].
Qed.

(** C10: for every moment set, whose [m00] is an area and so not
    negative, the side pair is ordered and non-negative: with [m00 = 0] it
    is exactly [(0, 0)]; with [m00 <> 0], whenever both square roots are
    defined, the first side is at least the second and both are at least
    0. *)
Theorem sides_ordered_and_nonnegative (M : Moments) :
  0 <= m00 M ->
  (m00 M = 0 -> get_sides_based_on_moments M = Ret (0, 0)) /\
  (m00 M <> 0 ->
   forall a b, get_sides_based_on_moments M = Ret (a, b) ->
               0 <= b /\ b <= a /\ 0 <= a).
Proof.
  intro Hnn. split.
  - apply sides_for_area_zero.
  - intros Hm a b H.
    assert (Hpos : 0 < m00 M) by lra.
    destruct (get_sides_inv M a b Hm H) as (Hqa & Hqb & -> & ->).
    split; [| split].
    + apply sqrt_pos.
    + apply sqrt_le_1; try assumption.
      assert (Hd : 0 <= discriminant M) by apply sqrt_pos.
      unfold Rdiv. apply Rmult_le_compat_r.
      * left. apply Rinv_0_lt_compat. assumption.
      * lra.
    + apply sqrt_pos.
Qed.

Lemma sides_of_rectangle_4x3 :
  get_sides_based_on_moments rectangle_4x3 = Ret (4, 3).
Proof.
  unfold get_sides_based_on_moments, rectangle_4x3. cbn [m00 mu20 mu02 mu11].
  destruct (Req_dec_T 12 0) as [E | _]; [lra |].
  replace ((16 - 9) ^ 2 + 4 * 0 ^ 2) with (7 * 7) by lra.
  rewrite msqrt_defined by lra. rewrite sqrt_of_square by lra. cbn [rbind].
  rewrite pdiv_defined by lra. cbn [rbind].
  replace (6 * (16 + 9 + 7) / 12) with (4 * 4) by lra.
  rewrite msqrt_defined by lra. rewrite sqrt_of_square by lra. cbn [rbind].
  rewrite pdiv_defined by lra. cbn [rbind].
  replace (6 * (16 + 9 - 7) / 12) with (3 * 3) by lra.
  rewrite msqrt_defined by lra. rewrite sqrt_of_square by lra. cbn [rbind].
  reflexivity.
Qed.

Lemma sides_ordered_and_nonnegative_witness :
  0 <= m00 rectangle_4x3 /\ m00 rectangle_4x3 <> 0 /\
  0 <= 3 /\ 3 <= 4 /\ 0 <= 4.
Proof.
  assert (Hnn : 0 <= m00 rectangle_4x3) by (cbn; lra).
  assert (Hm : m00 rectangle_4x3 <> 0) by (cbn; lra).
  split; [exact Hnn |]. split; [exact Hm |].
  exact (proj2 (sides_ordered_and_nonnegative rectangle_4x3 Hnn) Hm 4 3
               sides_of_rectangle_4x3).
Defined.

(** ** The agreement method *)

Lemma a2_1_value (A P : R) : a2_1 A P = Ret (root_plus A P).
Proof.
  unfold a2_1, root_plus. rewrite msqrt_defined by apply Rabs_pos. reflexivity.
Qed.

Lemma a2_2_value (A P : R) : a2_2 A P = Ret (root_minus A P).
Proof.
  unfold a2_2, root_minus. rewrite msqrt_defined by apply Rabs_pos. reflexivity.
Qed.

Lemma root_minus_le_plus (A P : R) : root_minus A P <= root_plus A P.
Proof.
  unfold root_minus, root_plus.
  pose proof (sqrt_pos (Rabs (P ^ 2 - 16 * A))). lra.
Qed.

Lemma agreement_score_negative_root (a1 b1 A P : R) :
  root_plus A P < 0 \/ root_minus A P < 0 ->
  agreement_score a1 b1 A P = Ret 0.
Proof.
  unfold agreement_score. rewrite a2_1_value, a2_2_value. cbn [rbind].
  intros [H | H].
  - rewrite (ltb_true _ _ H). reflexivity.
  - rewrite (ltb_true _ _ H). rewrite orb_true_r. reflexivity.
Qed.

Lemma agreement_score_larger_root (a1 b1 A P : R) :
  0 <= root_plus A P -> 0 <= root_minus A P ->
  let a2 := Rmax (root_plus A P) (root_minus A P) in
  let b2 := A / a2 in
  a2 <> 0 -> a1 + a2 <> 0 -> b1 + b2 <> 0 ->
  agreement_score a1 b1 A P =
  Ret (1 - (Rabs (a1 - a2) / (a1 + a2) + Rabs (b1 - b2) / (b1 + b2)) / 2).
Proof.
  cbv zeta. intros H1 H2 Ha Hd1 Hd2.
  unfold agreement_score. rewrite a2_1_value, a2_2_value. cbn [rbind].
  rewrite (ltb_false _ _ H1), (ltb_false _ _ H2). cbn [orb].
  assert (Emax : (if Rgt_dec (root_plus A P) (root_minus A P)
                  then root_plus A P else root_minus A P)
                 = Rmax (root_plus A P) (root_minus A P)).
  { pose proof (root_minus_le_plus A P) as Hle.
    rewrite Rmax_left by exact Hle.
    destruct (Rgt_dec (root_plus A P) (root_minus A P)); [reflexivity | lra]. }
  rewrite Emax.
  rewrite (pdiv_defined _ _ Ha). cbn [rbind].
  rewrite (pdiv_defined _ _ Hd1). cbn [rbind].
  rewrite (pdiv_defined _ _ Hd2). cbn [rbind].
  reflexivity.
Qed.

(** C4, as the code behaves: the score is 0 as soon as one of the two
    candidate roots is negative; otherwise [a2] is the larger root,
    [b2 = A / a2] and the score is [1 - R / 2]. *)
Theorem agreement_zero_when_a_root_is_negative (a1 b1 A P : R) :
  let r1 := root_plus A P in
  let r2 := root_minus A P in
  a2_1 A P = Ret r1 /\ a2_2 A P = Ret r2 /\
  (r1 < 0 \/ r2 < 0 -> agreement_score a1 b1 A P = Ret 0) /\
  (0 <= r1 -> 0 <= r2 ->
   let a2 := Rmax r1 r2 in
   let b2 := A / a2 in
   a2 <> 0 -> a1 + a2 <> 0 -> b1 + b2 <> 0 ->
   agreement_score a1 b1 A P =
   Ret (1 - (Rabs (a1 - a2) / (a1 + a2) + Rabs (b1 - b2) / (b1 + b2)) / 2)).
Proof.
  cbv zeta. split; [apply a2_1_value |]. split; [apply a2_2_value |].
  split.
  - apply agreement_score_negative_root.
  - apply agreement_score_larger_root.
Qed.

Lemma roots_of_unit_square : root_plus 1 4 = 1 /\ root_minus 1 4 = 1.
Proof.
  unfold root_plus, root_minus.
  replace (4 ^ 2 - 16 * 1) with 0 by lra.
  rewrite Rabs_R0, sqrt_0. split; lra.
Qed.

Lemma roots_of_single_pixel : root_plus 1 0 = 1 /\ root_minus 1 0 = -1.
Proof.
  unfold root_plus, root_minus.
  replace (0 ^ 2 - 16 * 1) with (- (4 * 4)) by lra.
  rewrite Rabs_Ropp, Rabs_pos_eq by lra.
  rewrite sqrt_of_square by lra. split; lra.
Qed.

(** Sides 1 and 1, area 1, perimeter 4: the two estimates agree. *)
Lemma agreement_zero_when_a_root_is_negative_witness :
  agreement_score 1 1 1 4 = Ret 1.
Proof.
  destruct (agreement_zero_when_a_root_is_negative 1 1 1 4)
    as (_ & _ & _ & H).
  destruct roots_of_unit_square as [E1 E2].
  cbv zeta in H. rewrite E1, E2 in H.
  rewrite Rmax_left in H by lra.
  rewrite H; try lra.
  f_equal.
  replace (1 - 1) with 0 by lra.
  replace (1 - 1 / 1) with 0 by lra.
  rewrite Rabs_R0. lra.
Defined.

(** One pixel: area 1, perimeter 0.  The first root is 1, the second -1,
    and the score is 0. *)
Lemma agreement_of_single_pixel : agreement_score 0 0 1 0 = Ret 0.
Proof.
  apply agreement_score_negative_root.
  right. destruct roots_of_single_pixel as [_ ->]. lra.
Qed.

(** C4 as stated fails: the score is 0 although the roots are not both
    negative. *)
Lemma agreement_zero_with_one_negative_root :
  ~ (forall a1 b1 A P,
        agreement_score a1 b1 A P = Ret 0 <->
        (exists r1 r2, a2_1 A P = Ret r1 /\ a2_2 A P = Ret r2 /\
                       r1 < 0 /\ r2 < 0)).
Proof.
  intro H.
  destruct (proj1 (H 0 0 1 0) agreement_of_single_pixel)
    as (r1 & r2 & E1 & _ & Hneg & _).
  rewrite a2_1_value in E1. injection E1 as <-.
  destruct roots_of_single_pixel as [E _]. lra.
Qed.

(** ** The clipped region *)

(** C2 on [centre_dot]: the bounding rectangle is [(1, 1, 1, 1)], the code
    takes [image[1:1, 1:1]], which is empty, so [A2 = 0]; the foreground
    inside the bounding box sums to 1. *)
Theorem clipped_region_is_not_the_bounding_box :
  boundingRect [(1, 1)%Z] = (1, 1, 1, 1)%Z /\
  box_image centre_dot [(1, 1)%Z] = [] /\
  np_sum (box_image centre_dot [(1, 1)%Z]) = 0%Z /\
  np_sum (bounding_box_block centre_dot [(1, 1)%Z]) = 1%Z.
Proof. repeat split; reflexivity. Qed.

(** ** Reasoning about the store *)

Lemma extends_refl (w : world) : extends w w.
Proof. split; [lia | reflexivity]. Qed.

Lemma extends_trans (w1 w2 w3 : world) :
  extends w1 w2 -> extends w2 w3 -> extends w1 w3.
Proof.
  intros [Hb1 Hm1] [Hb2 Hm2]. split; [lia |].
  intros k Hk. rewrite Hm2 by lia. apply Hm1. exact Hk.
Qed.

Lemma framed_ret {A} (a : A) : framed (ret a).
Proof. intro w. apply extends_refl. Qed.

Lemma framed_raise {A} (e : exn) : framed (@raise A e).
Proof. intro w. apply extends_refl. Qed.

Lemma framed_lift {A} (c : result A) : framed (lift c).
Proof. intro w. apply extends_refl. Qed.

Lemma framed_load (l : loc) : framed (load l).
Proof. intro w. apply extends_refl. Qed.

Lemma framed_print (s : string) : framed (print s).
Proof. intro w. split; [cbn; lia | reflexivity]. Qed.

Lemma framed_alloc (img : image) : framed (alloc img).
Proof.
  intro w. split; [cbn; lia |].
  intros k Hk. cbn. destruct (Nat.eqb_spec k (brk w)); [lia | reflexivity].
Qed.

Lemma framed_bind {A B} (c : py A) (k : A -> py B) :
  framed c -> (forall a, framed (k a)) -> framed (bind c k).
Proof.
  intros Hc Hk w. unfold bind. specialize (Hc w).
  destruct (c w) as [[a | e] w']; cbn [snd] in *.
  - eapply extends_trans; [exact Hc | apply Hk].
  - exact Hc.
Qed.

(** Painting a buffer that was copied just before touches no buffer that
    existed before the copy. *)
Lemma framed_copy_then_fill {A} (env : Env) (l : loc) (box : list point)
  (colour : Z) (k : loc -> py A) :
  (forall l', framed (k l')) ->
  framed (bind (copy l)
               (fun l' => bind (fillConvexPoly env l' box colour)
                               (fun _ => k l'))).
Proof.
  intros Hk w. unfold bind, copy, fillConvexPoly, bind, load, alloc, store.
  cbn [fst snd mem brk stdout].
  match goal with
  | |- extends _ (snd (k ?l' ?w2)) =>
    eapply extends_trans; [| exact (Hk l' w2)]
  end.
  split; [cbn; lia |].
  intros j Hj. cbn. destruct (Nat.eqb_spec j (brk w)); [lia | reflexivity].
Qed.

Create HintDb framed.
#[local] Hint Resolve framed_ret framed_raise framed_lift framed_load
  framed_print framed_alloc : framed.

Ltac framed_steps :=
  repeat first
    [ solve [auto with framed]
    | apply framed_copy_then_fill; intros
    | apply framed_bind; [| intros]
    | match goal with
      | |- framed (if ?b then _ else _) => destruct b
      | |- framed (match ?x with _ => _ end) => destruct x
      end ].

Lemma framed_get_contour (env : Env) (l : loc) (mode : retrieval_mode)
  (method : approx_method) : framed (get_contour env l mode method).
Proof. unfold get_contour. framed_steps. Qed.

Lemma framed_get_mbr_areas (env : Env) (l : loc) : framed (get_mbr_areas env l).
Proof.
  unfold get_mbr_areas. framed_steps.
Qed.

Lemma framed_get_rectangular_discrepancy_descriptor (env : Env) (l : loc) :
  framed (get_rectangular_discrepancy_descriptor env l).
Proof.
  unfold get_rectangular_discrepancy_descriptor. framed_steps.
Qed.

Lemma framed_get_robust_mbr_discrepancy (env : Env) (l : loc) :
  framed (get_robust_mbr_discrepancy env l).
Proof.
  unfold get_robust_mbr_discrepancy. framed_steps.
Qed.

#[local] Hint Resolve framed_get_contour framed_get_mbr_areas
  framed_get_rectangular_discrepancy_descriptor
  framed_get_robust_mbr_discrepancy : framed.

Lemma framed_rectangularity (env : Env) (l : loc) (method : string) :
  framed (rectangularity env l method).
Proof. unfold rectangularity. framed_steps. Qed.

(** [cv.fillConvexPoly] itself works in place: it is the copy taken in
    [get_mbr_areas] that protects the caller's buffer. *)
Lemma fillConvexPoly_in_place (env : Env) (l : loc) (box : list point)
  (colour : Z) (w : world) :
  mem (snd (fillConvexPoly env l box colour w)) l
  = paint (polygon env box) colour (mem w l).
Proof.
  unfold fillConvexPoly, bind, load, store. cbn.
  rewrite Nat.eqb_refl. reflexivity.
Qed.

(** C9: whatever the method and whether the call returns or raises, every
    buffer that existed before the call, the input mask among them, holds
    the same pixels afterwards. *)
Theorem input_mask_unchanged (env : Env) (image : loc) (method : string)
  (w : world) (l : loc) :
  (l < brk w)%nat ->
  mem (snd (rectangularity env image method w)) l = mem w l.
Proof.
  intro Hl. destruct (framed_rectangularity env image method w) as [_ H].
  apply H. exact Hl.
Qed.

(** ** Running the code *)

Lemma bind_ret_eq {A B} (c : py A) (k : A -> py B) (w w' : world) (a : A) :
  c w = (Ret a, w') -> bind c k w = k a w'.
Proof. intro H. unfold bind. rewrite H. reflexivity. Qed.

Lemma bind_raise_eq {A B} (c : py A) (k : A -> py B) (w w' : world) (e : exn) :
  c w = (Raise e, w') -> bind c k w = (Raise e, w').
Proof. intro H. unfold bind. rewrite H. reflexivity. Qed.

Lemma get_contour_single (env : Env) (l : loc) (mode : retrieval_mode)
  (method : approx_method) (w : world) (cnt : contour) :
  findContours env (mem w l) mode method = [cnt] ->
  get_contour env l mode method w = (Ret cnt, w).
Proof.
  intro H. unfold get_contour, bind, load. cbn [mem]. rewrite H. reflexivity.
Qed.

Lemma get_contour_first (env : Env) (l : loc) (mode : retrieval_mode)
  (method : approx_method) (w : world) (cnt : contour) (rest : list contour) :
  findContours env (mem w l) mode method = cnt :: rest ->
  exists w',
    get_contour env l mode method w = (Ret cnt, w') /\
    mem w' = mem w /\ brk w' = brk w.
Proof.
  intro H. unfold get_contour, bind, load. cbn [mem]. rewrite H.
  destruct rest as [| c rest]; cbn; eexists; repeat split; reflexivity.
Qed.

Lemma get_contour_none (env : Env) (l : loc) (mode : retrieval_mode)
  (method : approx_method) (w : world) :
  findContours env (mem w l) mode method = [] ->
  get_contour env l mode method w = (Raise IndexError, w).
Proof.
  intro H. unfold get_contour, bind, load. cbn [mem]. rewrite H. reflexivity.
Qed.

Ltac method_cases H :=
  unfold is_mbr, is_r_d, is_r_r, is_r_a, is_r_m in H;
  repeat match type of H with
         | (_ || _)%bool = true => apply orb_true_iff in H; destruct H as [H | H]
         end;
  apply String.eqb_eq in H; subst.

(** ** An unrecognised method *)

(** C3, as the code behaves: for a method that is none of the recognised
    names, the call prints "Wrong method." and returns [None]; nothing is
    raised, no buffer is read, written or allocated, and no routine of the
    environment is consulted. *)
Theorem unrecognised_method_returns_none (env : Env) (image : loc)
  (method : string) (w : world) :
  recognised method = false ->
  rectangularity env image method w
  = (Ret None, World (mem w) (brk w) (stdout w ++ ["Wrong method."%string])).
Proof.
  unfold recognised. intro H.
  repeat match type of H with
         | (_ || _)%bool = false =>
           apply orb_false_iff in H; let H' := fresh "H" in destruct H as [H H']
         end.
  unfold rectangularity.
  repeat match goal with
         | E : ?b = false |- context [if ?b then _ else _] => rewrite E
         end.
  reflexivity.
Qed.

(** ** Region moments and the single-pixel environment *)

Lemma raw_moment_00_nonneg (pts : list point) : 0 <= raw_moment 0 0 pts.
Proof.
  unfold raw_moment, sumR.
  induction pts as [| pt pts IH]; cbn [map fold_right pow] in *; lra.
Qed.

Lemma raw_moment_00_cons (pt : point) (pts : list point) :
  0 < raw_moment 0 0 (pt :: pts).
Proof.
  pose proof (raw_moment_00_nonneg pts) as H.
  unfold raw_moment, sumR in *. cbn [map fold_right pow] in *. lra.
Qed.

Lemma row_foreground_nil (r c : Z) (row : list Z) :
  row_foreground r c row = [] -> forallb (Z.eqb 0) row = true.
Proof.
  revert c. induction row as [| p ps IH]; intros c H; cbn in *.
  - reflexivity.
  - destruct (Z.eqb_spec p 0) as [-> | Hp].
    + cbn in *. apply (IH _ H).
    + discriminate H.
Qed.

Lemma rows_foreground_nil (r : Z) (rows : image) :
  rows_foreground r rows = [] -> no_foreground rows = true.
Proof.
  revert r. induction rows as [| row rest IH]; intros r H; cbn in *.
  - reflexivity.
  - apply app_eq_nil in H. destruct H as [H1 H2].
    rewrite (row_foreground_nil _ _ _ H1). apply (IH _ H2).
Qed.

(** With this reading of the helper, a mask that has a foreground pixel has
    a positive [m00]. *)
Lemma region_moments_positive_area (img : image) :
  no_foreground img = false -> 0 < m00 (region_moments img).
Proof.
  intro H. unfold region_moments. cbn [m00].
  destruct (foreground img) as [| pt pts] eqn:E.
  - unfold foreground in E. apply rows_foreground_nil in E. congruence.
  - apply raw_moment_00_cons.
Qed.

Lemma trunc_IZR (z : Z) : (0 <= z)%Z -> trunc (IZR z) = z.
Proof.
  intro Hz. unfold trunc.
  destruct (Rlt_dec (IZR z) 0) as [Hneg | _].
  - apply IZR_le in Hz. lra.
  - symmetry. apply Int_part_spec. lra.
Qed.

Lemma row_foreground_blank (r c : Z) (row : list Z) :
  forallb (Z.eqb 0) row = true -> row_foreground r c row = [].
Proof.
  revert c. induction row as [| p ps IH]; intros c H.
  - reflexivity.
  - cbn [forallb] in H. apply andb_true_iff in H. destruct H as [Hp Hps].
    apply Z.eqb_eq in Hp. subst p. cbn. apply IH. exact Hps.
Qed.

Lemma rows_foreground_blank (r : Z) (rows : image) :
  no_foreground rows = true -> rows_foreground r rows = [].
Proof.
  revert r. induction rows as [| row rest IH]; intros r H.
  - reflexivity.
  - unfold no_foreground in H. cbn [forallb] in H.
    apply andb_true_iff in H. destruct H as [Hrow Hrest].
    cbn [rows_foreground].
    rewrite (row_foreground_blank _ _ _ Hrow). cbn [app]. apply IH. exact Hrest.
Qed.

Lemma single_pixel_blank (rot : image -> Z -> image) (img : image)
  (mode : retrieval_mode) (method : approx_method) :
  no_foreground img = true ->
  findContours (single_pixel_env rot) img mode method = [].
Proof.
  intro H. cbn [findContours single_pixel_env]. unfold first_pixel, foreground.
  rewrite (rows_foreground_blank _ _ H). reflexivity.
Qed.

Lemma unrecognised_method_returns_none_witness :
  rectangularity (single_pixel_env no_rotation) 0%nat "triangle"
                 (world_with centre_dot)
  = (Ret None, World (fun _ => centre_dot) 1%nat ["Wrong method."%string]).
Proof.
  exact (unrecognised_method_returns_none (single_pixel_env no_rotation) 0%nat
           "triangle" (world_with centre_dot) eq_refl).
Defined.

(** C3 as stated fails: for the method name "triangle" nothing is raised. *)
Lemma unrecognised_method_raises_nothing :
  ~ (exists e w',
        rectangularity (single_pixel_env no_rotation) 0%nat "triangle"
                       (world_with centre_dot) = (Raise e, w')).
Proof.
  intros (e & w' & H).
  change (rectangularity (single_pixel_env no_rotation) 0%nat "triangle"
                         (world_with centre_dot))
    with (@Ret (option R) None,
          World (fun _ => centre_dot) 1%nat ["Wrong method."%string]) in H.
  discriminate H.
Qed.

(** ** The moments method *)

Lemma moments_score_value (m : Moments) :
  m00 m <> 0 ->
  let raw := 144 * mu22 m / m00 m ^ 3 in
  exists score,
    moments_score m = Ret score /\
    (raw <= 1 -> score = raw) /\
    (1 < raw -> score = 1 / raw /\ raw * score = 1).
Proof.
  intros Hm raw. unfold moments_score.
  assert (Hcube : m00 m ^ 3 <> 0) by (apply pow_nonzero; exact Hm).
  rewrite (pdiv_defined _ _ Hcube). cbn [rbind]. fold raw.
  destruct (Rle_dec raw 1) as [Hle | Hgt].
  - exists raw. split; [reflexivity |]. split; [reflexivity | lra].
  - assert (Hraw : raw <> 0) by lra.
    rewrite (pdiv_defined _ _ Hraw). exists (1 / raw).
    split; [reflexivity |]. split; [lra |].
    intros _. split; [reflexivity |]. field. exact Hraw.
Qed.

Ltac pick_branch :=
  unfold rectangularity;
  cbv [is_mbr is_r_d is_r_r is_r_a is_r_m String.eqb Ascii.eqb Bool.eqb orb].

Lemma rectangularity_moments (env : Env) (image : loc) (method : string)
  (w : world) :
  is_r_m method = true ->
  rectangularity env image method w
  = (match moments_score (moments env (mem w image)) with
     | Ret score => Ret (Some score)
     | Raise e => Raise e
     end, w).
Proof.
  intro H. method_cases H; pick_branch; unfold bind, load, lift; cbn [mem];
    destruct (moments_score (moments env (mem w image))); reflexivity.
Qed.

(** Whatever the helper returns, the moments method does not end in the
    error of contour extraction: it extracts no contour. *)
Lemma moments_method_extracts_no_contour (env : Env) (image : loc)
  (method : string) (w : world) :
  is_r_m method = true ->
  fst (rectangularity env image method w) <> Raise IndexError.
Proof.
  intro H. rewrite (rectangularity_moments _ _ _ _ H). cbn [fst].
  unfold moments_score, pdiv.
  destruct (Req_dec_T (m00 (moments env (mem w image)) ^ 3) 0);
    cbn [rbind]; [discriminate |].
  destruct (Rle_dec _ 1); [discriminate |].
  destruct (Req_dec_T _ 0); discriminate.
Qed.

(** C8: on a mask with foreground, for which the [moments] helper reports
    a non-zero [m00], the moments method returns the raw value
    [144 * mu22 / m00^3] when it is at most 1 and its reciprocal otherwise;
    in the second case raw value times score is 1. *)
Theorem moments_method_returns_raw_or_reciprocal (env : Env) (image : loc)
  (method : string) (w : world) :
  is_r_m method = true ->
  no_foreground (mem w image) = false ->
  (forall img, no_foreground img = false -> m00 (moments env img) <> 0) ->
  let m := moments env (mem w image) in
  let raw := 144 * mu22 m / m00 m ^ 3 in
  exists score,
    rectangularity env image method w = (Ret (Some score), w) /\
    (raw <= 1 -> score = raw) /\
    (1 < raw -> score = 1 / raw /\ raw * score = 1).
Proof.
  intros Hmeth Hfg Henv m raw.
  destruct (moments_score_value m (Henv _ Hfg)) as (score & E & Hle & Hgt).
  exists score. split; [| split; assumption].
  rewrite (rectangularity_moments _ _ _ _ Hmeth). fold m. rewrite E. reflexivity.
Qed.

Lemma region_moments_four_corners :
  m00 (region_moments four_corners) = 4 /\
  mu22 (region_moments four_corners) = 4.
Proof.
  unfold region_moments. cbn [m00 mu22].
  change (foreground four_corners) with [(0, 0); (2, 0); (0, 2); (2, 2)]%Z.
  unfold central_moment, raw_moment, sumR.
  cbn [map fold_right fst snd pow]. split; field.
Qed.

Lemma moments_method_returns_raw_or_reciprocal_witness :
  rectangularity (single_pixel_env no_rotation) 0%nat "r_m"
                 (world_with four_corners)
  = (Ret (Some (1 / 9)), world_with four_corners).
Proof.
  destruct region_moments_four_corners as [E00 E22].
  assert (Hm : forall img,
             no_foreground img = false ->
             m00 (moments (single_pixel_env no_rotation) img) <> 0).
  { intros img Hfg. pose proof (region_moments_positive_area img Hfg) as Hpos.
    cbn [moments single_pixel_env]. lra. }
  destruct (moments_method_returns_raw_or_reciprocal
              (single_pixel_env no_rotation) 0%nat "r_m"
              (world_with four_corners) eq_refl eq_refl Hm)
    as (score & E & _ & Hgt).
  cbn [moments single_pixel_env mem world_with] in Hgt.
  rewrite E00, E22 in Hgt.
  replace (144 * 4 / 4 ^ 3) with 9 in Hgt by field.
  destruct Hgt as [-> _]; [lra |]. exact E.
Defined.

(** *** Rounding

    In binary64 the reciprocal is rounded, and so is its product with the
    raw value. *)

Lemma region_moments_wide_corners :
  m00 (region_moments wide_corners) = 4 /\
  mu22 (region_moments wide_corners) = 81 / 4.
Proof.
  unfold region_moments. cbn [m00 mu22].
  change (foreground wide_corners) with [(0, 0); (3, 0); (0, 3); (3, 3)]%Z.
  unfold central_moment, raw_moment, sumR.
  cbn [map fold_right fst snd pow]. split; field.
Qed.

(** C8 as stated fails in Python's arithmetic: with [mu22 = 20.25] and
    [m00 = 4] the raw value is 45.5625, the score is its rounded reciprocal,
    and their product is not 1. *)
Lemma reciprocal_product_is_rounded :
  let raw := (144 * 20.25 / (4 * 4 * 4))%float in
  let score := moments_score_binary64 20.25 4 in
  (raw =? 45.5625)%float = true /\
  (1 <? raw)%float = true /\
  (score =? 1 / raw)%float = true /\
  (raw * score =? 1)%float = false /\
  (raw * score <? 1)%float = true.
Proof. vm_compute. repeat split. Qed.

(** ** Contour extraction that finds nothing *)

Lemma get_mbr_areas_none (env : Env) (l : loc) (w : world) :
  findContours env (mem w l) RETR_EXTERNAL CHAIN_APPROX_SIMPLE = [] ->
  get_mbr_areas env l w = (Raise IndexError, w).
Proof.
  intro H. unfold get_mbr_areas.
  apply bind_raise_eq. apply get_contour_none. exact H.
Qed.

Lemma get_rectangular_discrepancy_descriptor_none (env : Env) (l : loc)
  (w : world) :
  findContours env (mem w l) RETR_EXTERNAL CHAIN_APPROX_SIMPLE = [] ->
  get_rectangular_discrepancy_descriptor env l w = (Raise IndexError, w).
Proof.
  intro H. unfold get_rectangular_discrepancy_descriptor.
  apply bind_raise_eq. apply get_contour_none. exact H.
Qed.

Lemma get_robust_mbr_discrepancy_none (env : Env) (l : loc) (w : world) :
  findContours env (mem w l) RETR_EXTERNAL CHAIN_APPROX_SIMPLE = [] ->
  get_robust_mbr_discrepancy env l w = (Raise IndexError, w).
Proof.
  intro H. unfold get_robust_mbr_discrepancy.
  apply bind_raise_eq. apply get_contour_none. exact H.
Qed.

(** ** The two-orientation methods *)

Lemma rectangularity_two_orientations (env : Env) (image : loc)
  (method : string) :
  is_r_d method || is_r_r method = true ->
  rectangularity env image method
  = two_orientations env (orientation_descriptor env method) image.
Proof.
  intro H. apply orb_true_iff in H.
  destruct H as [H | H]; method_cases H; reflexivity.
Qed.

Lemma two_orientations_run (env : Env) (descriptor : loc -> py R)
  (image : loc) (w : world) :
  two_orientations env descriptor image w
  = bind (descriptor image)
         (fun s => bind (descriptor (brk w))
                        (fun r => if Rgt_dec s r then ret (Some s)
                                  else ret (Some r)))
         (with_rotated env image w).
Proof. reflexivity. Qed.

Lemma greater_is_max (s r : R) : (if Rgt_dec s r then s else r) = Rmax s r.
Proof.
  destruct (Rgt_dec s r) as [H | H].
  - rewrite Rmax_left by lra. reflexivity.
  - rewrite Rmax_right by lra. reflexivity.
Qed.

Lemma two_orientations_max (env : Env) (descriptor : loc -> py R)
  (image : loc) (w w1 w2 : world) (s r : R) :
  descriptor image (with_rotated env image w) = (Ret s, w1) ->
  descriptor (brk w) w1 = (Ret r, w2) ->
  two_orientations env descriptor image w = (Ret (Some (Rmax s r)), w2).
Proof.
  intros Hs Hr. rewrite two_orientations_run.
  rewrite (bind_ret_eq _ _ _ _ _ Hs). rewrite (bind_ret_eq _ _ _ _ _ Hr).
  rewrite <- greater_is_max. destruct (Rgt_dec s r); reflexivity.
Qed.

(** The selection itself: when the per-orientation descriptor returns [s]
    on the mask and [r] on the mask turned by 45 degrees, "r_d" and "r_r"
    return the larger of the two. *)
Theorem returns_maximum_of_two_orientations (env : Env) (image : loc)
  (method : string) (w w1 w2 : world) (s r : R) :
  is_r_d method || is_r_r method = true ->
  orientation_descriptor env method image (with_rotated env image w)
  = (Ret s, w1) ->
  orientation_descriptor env method (brk w) w1 = (Ret r, w2) ->
  rectangularity env image method w = (Ret (Some (Rmax s r)), w2) /\
  s <= Rmax s r /\ r <= Rmax s r.
Proof.
  intros Hm Hs Hr. split; [| split].
  - rewrite (rectangularity_two_orientations _ _ _ Hm).
    exact (two_orientations_max _ _ _ _ _ _ _ _ Hs Hr).
  - apply Rmax_l.
  - apply Rmax_r.
Qed.

(** A contour that encloses no area ([m00 = 0], as for a single pixel or a
    one-pixel-wide line) gives the discrepancy descriptor 0. *)
Lemma get_rectangular_discrepancy_descriptor_no_area (env : Env) (l : loc)
  (w : world) (cnt : contour) :
  findContours env (mem w l) RETR_EXTERNAL CHAIN_APPROX_SIMPLE = [cnt] ->
  m00 (cv_moments env cnt) = 0 ->
  get_rectangular_discrepancy_descriptor env l w = (Ret 0, w).
Proof.
  intros Hc Hm. unfold get_rectangular_discrepancy_descriptor.
  rewrite (bind_ret_eq _ _ _ _ _ (get_contour_single _ _ _ _ _ _ Hc)).
  unfold bind, lift, load.
  rewrite (sides_for_area_zero _ Hm).
  cbn [fst snd]. destruct (Req_dec_T (0 * 0) 0) as [_ | N]; [reflexivity | lra].
Qed.

Lemma returns_maximum_of_two_orientations_witness :
  rectangularity (single_pixel_env no_rotation) 0%nat "r_d"
                 (world_with centre_dot)
  = (Ret (Some (Rmax 0 0)),
     with_rotated (single_pixel_env no_rotation) 0%nat (world_with centre_dot))
  /\ 0 <= Rmax 0 0 /\ 0 <= Rmax 0 0.
Proof.
  apply (returns_maximum_of_two_orientations
           (single_pixel_env no_rotation) 0%nat "r_d" (world_with centre_dot)
           (with_rotated (single_pixel_env no_rotation) 0%nat
                         (world_with centre_dot))).
  - reflexivity.
  - apply (get_rectangular_discrepancy_descriptor_no_area _ _ _ [(1, 1)%Z]);
      reflexivity.
  - apply (get_rectangular_discrepancy_descriptor_no_area _ _ _ [(1, 1)%Z]);
      reflexivity.
Defined.

Lemma input_mask_unchanged_witness :
  mem (snd (rectangularity (single_pixel_env no_rotation) 0%nat "r_r"
                           (world_with centre_dot))) 0%nat
  = centre_dot.
Proof.
  exact (input_mask_unchanged (single_pixel_env no_rotation) 0%nat "r_r"
           (world_with centre_dot) 0%nat (le_n 1)).
Defined.

(** ** A mask without foreground *)

Lemma rectangularity_mbr (env : Env) (image : loc) (method : string) :
  is_mbr method = true ->
  rectangularity env image method
  = (areas <- get_mbr_areas env image ;;
     R_B <- lift (pdiv (IZR (fst areas)) (IZR (snd areas))) ;;
     ret (Some R_B))%py.
Proof. intro H. method_cases H; reflexivity. Qed.

Lemma rectangularity_agreement (env : Env) (image : loc) (method : string) :
  is_r_a method = true ->
  rectangularity env image method
  = (cnt <- get_contour env image RETR_EXTERNAL CHAIN_APPROX_SIMPLE ;;
     ab <- lift (get_sides_based_on_moments (cv_moments env cnt)) ;;
     img <- load image ;;
     R_A <- lift (agreement_score (fst ab) (snd ab) (IZR (np_sum img))
                                  (arcLength env cnt)) ;;
     ret (Some R_A))%py.
Proof. intro H. method_cases H; reflexivity. Qed.

Lemma with_rotated_keeps (env : Env) (image : loc) (w : world) :
  (image < brk w)%nat -> mem (with_rotated env image w) image = mem w image.
Proof.
  intro H. unfold with_rotated, alloc. cbn [snd mem].
  destruct (Nat.eqb_spec image (brk w)); [lia | reflexivity].
Qed.

Lemma with_rotated_new (env : Env) (image : loc) (w : world) :
  mem (with_rotated env image w) (brk w) = rotate env (mem w image) 45.
Proof.
  unfold with_rotated, alloc. cbn [snd mem]. rewrite Nat.eqb_refl. reflexivity.
Qed.

(** C6, as the code behaves: on a stored mask without foreground, given
    that [cv.findContours] finds no contour in such a mask, the four
    methods that extract a contour raise the error of [contours[0]]. *)
Theorem blank_mask_raises_in_contour_methods (env : Env) (image : loc)
  (method : string) (w : world) :
  contour_based method = true ->
  (image < brk w)%nat ->
  no_foreground (mem w image) = true ->
  (forall img mode approx,
      no_foreground img = true -> findContours env img mode approx = []) ->
  fst (rectangularity env image method w) = Raise IndexError.
Proof.
  intros Hm Hl Hblank Henv.
  assert (Hnone : findContours env (mem w image)
                               RETR_EXTERNAL CHAIN_APPROX_SIMPLE = [])
    by (apply Henv; exact Hblank).
  unfold contour_based in Hm.
  assert (Hrot : findContours env (mem (with_rotated env image w) image)
                              RETR_EXTERNAL CHAIN_APPROX_SIMPLE = [])
    by (rewrite with_rotated_keeps by exact Hl; exact Hnone).
  apply orb_true_iff in Hm. destruct Hm as [Hm | Ha].
  - apply orb_true_iff in Hm. destruct Hm as [Hm | Hrr].
    + apply orb_true_iff in Hm. destruct Hm as [Hmbr | Hrd].
      * rewrite (rectangularity_mbr _ _ _ Hmbr).
        rewrite (bind_raise_eq _ _ _ _ _ (get_mbr_areas_none _ _ _ Hnone)).
        reflexivity.
      * rewrite rectangularity_two_orientations by (rewrite Hrd; reflexivity).
        rewrite two_orientations_run. unfold orientation_descriptor.
        rewrite Hrd.
        rewrite (bind_raise_eq _ _ _ _ _
                   (get_rectangular_discrepancy_descriptor_none _ _ _ Hrot)).
        reflexivity.
    + rewrite rectangularity_two_orientations
        by (rewrite Hrr; apply orb_true_r).
      rewrite two_orientations_run. unfold orientation_descriptor.
      assert (Hrd : is_r_d method = false) by (method_cases Hrr; reflexivity).
      rewrite Hrd.
      rewrite (bind_raise_eq _ _ _ _ _
                 (get_robust_mbr_discrepancy_none _ _ _ Hrot)).
      reflexivity.
  - rewrite (rectangularity_agreement _ _ _ Ha).
    rewrite (bind_raise_eq _ _ _ _ _ (get_contour_none _ _ _ _ _ Hnone)).
    reflexivity.
Qed.

Lemma blank_mask_raises_in_contour_methods_witness :
  fst (rectangularity (single_pixel_env no_rotation) 0%nat
                      "Rectangular Discrepancy" (world_with blank))
  = Raise IndexError.
Proof.
  apply blank_mask_raises_in_contour_methods.
  - reflexivity.
  - apply le_n.
  - reflexivity.
  - intros img mode approx H. apply single_pixel_blank. exact H.
Defined.

(** C6 as stated fails for the moments method: it extracts no contour, and
    on a blank mask it stops at the division by [m00 ** 3 = 0]. *)
Lemma moments_method_on_blank_mask :
  is_r_m "r_m" = true /\
  no_foreground blank = true /\
  fst (rectangularity (single_pixel_env no_rotation) 0%nat "r_m"
                      (world_with blank))
  = Raise ZeroDivisionError /\
  fst (rectangularity (single_pixel_env no_rotation) 0%nat "r_m"
                      (world_with blank))
  <> Raise IndexError.
Proof.
  assert (E : fst (rectangularity (single_pixel_env no_rotation) 0%nat "r_m"
                                  (world_with blank))
              = Raise ZeroDivisionError).
  { rewrite rectangularity_moments by reflexivity. cbn [fst].
    unfold moments_score, pdiv.
    cbn [moments single_pixel_env mem world_with region_moments m00 mu22].
    change (foreground blank) with (@nil point).
    unfold raw_moment, sumR. cbn [map fold_right].
    destruct (Req_dec_T (0 ^ 3) 0) as [_ | N]; [reflexivity |].
    exfalso. apply N. ring. }
  repeat split; try reflexivity; [exact E |].
  rewrite E. discriminate.
Qed.

(** ** The agreement method inside [rectangularity] *)

Lemma agreement_method_runs (env : Env) (image : loc) (method : string)
  (w : world) (cnt : contour) (a1 b1 : R) :
  is_r_a method = true ->
  findContours env (mem w image) RETR_EXTERNAL CHAIN_APPROX_SIMPLE = [cnt] ->
  get_sides_based_on_moments (cv_moments env cnt) = Ret (a1, b1) ->
  rectangularity env image method w
  = (match agreement_score a1 b1 (IZR (np_sum (mem w image)))
                           (arcLength env cnt) with
     | Ret score => Ret (Some score)
     | Raise e => Raise e
     end, w).
Proof.
  intros Hm Hc Hs. rewrite (rectangularity_agreement _ _ _ Hm).
  rewrite (bind_ret_eq _ _ _ _ _ (get_contour_single _ _ _ _ _ _ Hc)).
  unfold bind, lift, load. rewrite Hs. cbn [fst snd mem].
  destruct (agreement_score a1 b1 (IZR (np_sum (mem w image)))
                            (arcLength env cnt)); reflexivity.
Qed.

(** On [centre_dot] the agreement method returns 0: area 1, perimeter 0,
    roots 1 and -1. *)
Lemma agreement_method_on_centre_dot :
  rectangularity (single_pixel_env no_rotation) 0%nat "r_a"
                 (world_with centre_dot)
  = (Ret (Some 0), world_with centre_dot).
Proof.
  rewrite (agreement_method_runs _ _ _ _ [(1, 1)%Z] 0 0);
    try reflexivity.
  - change (IZR (np_sum (mem (world_with centre_dot) 0%nat))) with 1.
    change (arcLength (single_pixel_env no_rotation) [(1, 1)%Z]) with 0.
    rewrite agreement_of_single_pixel. reflexivity.
  - apply sides_for_area_zero. reflexivity.
Qed.

(** ** The bounding-rectangle ratio on a bright pixel *)

(** What [get_mbr_areas] does once a contour is found: the two areas are
    the sum of the mask and the sum of a painted copy; the copy is a new
    buffer and the mask is left as it was. *)
Lemma get_mbr_areas_found (env : Env) (l : loc) (w : world) (cnt : contour)
  (rest : list contour) :
  findContours env (mem w l) RETR_EXTERNAL CHAIN_APPROX_SIMPLE = cnt :: rest ->
  let painted := paint (polygon env (mbr_box env cnt)) 1 (mem w l) in
  exists w',
    get_mbr_areas env l w = (Ret (np_sum (mem w l), np_sum painted), w') /\
    brk w' = S (brk w) /\
    mem w' (brk w) = painted /\
    forall k, (k < brk w)%nat -> mem w' k = mem w k.
Proof.
  intros H painted.
  destruct (get_contour_first _ _ _ _ _ _ _ H) as (w0 & E & Hmem & Hbrk).
  unfold get_mbr_areas. rewrite (bind_ret_eq _ _ _ _ _ E).
  unfold bind, copy, fillConvexPoly, bind, load, alloc, store, ret.
  cbn [fst snd mem brk stdout]. rewrite Nat.eqb_refl, Hmem, Hbrk.
  eexists. split; [reflexivity |]. cbn [mem brk].
  split; [reflexivity |]. split.
  - rewrite Nat.eqb_refl. reflexivity.
  - intros k Hk. destruct (Nat.eqb_spec k (brk w)); [lia | reflexivity].
Qed.

Lemma paint_row_ext (f g : Z -> bool) (colour c : Z) (row : list Z) :
  (forall j, f j = g j) -> paint_row f colour c row = paint_row g colour c row.
Proof.
  intro H. revert c. induction row as [| p ps IH]; intro c; cbn.
  - reflexivity.
  - rewrite H, IH. reflexivity.
Qed.

Lemma paint_ext (f g : Z -> Z -> bool) (colour : Z) (img : image) :
  (forall i j, f i j = g i j) -> paint f colour img = paint g colour img.
Proof.
  intro H. unfold paint. generalize 0%Z.
  induction img as [| row rest IH]; intro r; cbn.
  - reflexivity.
  - rewrite IH. rewrite (paint_row_ext (f r) (g r)) by (intro j; apply H).
    reflexivity.
Qed.

(** *** Masks of zeros and ones

    When the foreground pixels are all 1, painting with colour 1 can only
    add to the sum, and the ratio is in (0, 1]. *)

Lemma sumZ_cons (z : Z) (l : list Z) : sumZ (z :: l) = (z + sumZ l)%Z.
Proof. reflexivity. Qed.

Lemma zero_one_row_sums (covered : Z -> bool) (c : Z) (row : list Z) :
  forallb (fun p => (p =? 0)%Z || (p =? 1)%Z) row = true ->
  (0 <= sumZ row <= sumZ (paint_row covered 1 c row))%Z.
Proof.
  revert c. induction row as [| p ps IH]; intros c H.
  - cbn. lia.
  - cbn [forallb] in H. apply andb_true_iff in H. destruct H as [Hp Hps].
    specialize (IH (c + 1)%Z Hps).
    cbn [paint_row]. rewrite !sumZ_cons.
    apply orb_true_iff in Hp.
    destruct (covered c); destruct Hp as [Hp | Hp]; apply Z.eqb_eq in Hp; lia.
Qed.

Lemma zero_one_rows_sums (covered : Z -> Z -> bool) (r : Z) (img : image) :
  zero_one img = true ->
  (0 <= np_sum img <= np_sum (paint_rows covered 1 r img))%Z.
Proof.
  unfold np_sum, zero_one. revert r.
  induction img as [| row rest IH]; intros r H.
  - cbn. lia.
  - cbn [forallb] in H. apply andb_true_iff in H. destruct H as [Hrow Hrest].
    specialize (IH (r + 1)%Z Hrest).
    pose proof (zero_one_row_sums (covered r) 0%Z row Hrow).
    cbn [paint_rows map]. rewrite !sumZ_cons. lia.
Qed.

Lemma zero_one_sums (covered : Z -> Z -> bool) (img : image) :
  zero_one img = true ->
  (0 <= np_sum img <= np_sum (paint covered 1 img))%Z.
Proof. apply zero_one_rows_sums. Qed.

Lemma foreground_row_sum (row : list Z) :
  forallb (fun p => (p =? 0)%Z || (p =? 1)%Z) row = true ->
  forallb (Z.eqb 0) row = false -> (0 < sumZ row)%Z.
Proof.
  induction row as [| p ps IH]; intros H Hfg.
  - discriminate Hfg.
  - cbn [forallb] in H, Hfg. apply andb_true_iff in H. destruct H as [Hp Hps].
    pose proof (zero_one_row_sums (fun _ => false) 0%Z ps Hps) as [Hnn _].
    rewrite sumZ_cons. apply orb_true_iff in Hp.
    destruct Hp as [Hp | Hp]; apply Z.eqb_eq in Hp; subst p.
    + cbn [Z.eqb andb] in Hfg. specialize (IH Hps Hfg). lia.
    + lia.
Qed.

Lemma foreground_sum (img : image) :
  zero_one img = true -> no_foreground img = false -> (0 < np_sum img)%Z.
Proof.
  unfold np_sum, zero_one, no_foreground.
  induction img as [| row rest IH]; intros H Hfg.
  - discriminate Hfg.
  - cbn [forallb] in H, Hfg. apply andb_true_iff in H. destruct H as [Hrow Hrest].
    pose proof (zero_one_row_sums (fun _ => false) 0%Z row Hrow) as [Hnn _].
    pose proof (zero_one_sums (fun _ _ => false) rest Hrest) as [Hnn' _].
    unfold np_sum in Hnn'. cbn [map]. rewrite sumZ_cons.
    destruct (forallb (Z.eqb 0) row) eqn:E.
    + cbn [andb] in Hfg. specialize (IH Hrest Hfg). lia.
    + pose proof (foreground_row_sum row Hrow E). lia.
Qed.

(** X24: on a mask of zeros and ones with some foreground in which a
    contour is found, the bounding-rectangle ratio is a number in (0, 1]. *)
Lemma mbr_ratio_of_zero_one_mask (env : Env) (image : loc) (method : string)
  (w : world) (cnt : contour) (rest : list contour) :
  is_mbr method = true ->
  zero_one (mem w image) = true ->
  no_foreground (mem w image) = false ->
  findContours env (mem w image) RETR_EXTERNAL CHAIN_APPROX_SIMPLE
  = cnt :: rest ->
  exists R_B,
    fst (rectangularity env image method w) = Ret (Some R_B) /\
    0 < R_B <= 1.
Proof.
  intros Hm H01 Hfg Hc.
  rewrite (rectangularity_mbr _ _ _ Hm).
  destruct (get_mbr_areas_found _ _ _ _ _ Hc) as (w' & E & _).
  rewrite (bind_ret_eq _ _ _ _ _ E). cbn [fst snd].
  pose proof (zero_one_sums (polygon env (mbr_box env cnt)) _ H01) as [_ Hle].
  pose proof (foreground_sum _ H01 Hfg) as Hpos.
  set (region_area := np_sum (mem w image)) in *.
  set (mbr_area := np_sum (paint _ 1 (mem w image))) in *.
  assert (Hr : 0 < IZR region_area) by (apply IZR_lt; exact Hpos).
  assert (Hb : IZR region_area <= IZR mbr_area) by (apply IZR_le; exact Hle).
  unfold bind, lift. rewrite pdiv_defined by lra. cbn [fst ret].
  exists (IZR region_area / IZR mbr_area). split; [reflexivity |].
  split.
  - apply Rdiv_lt_0_compat; lra.
  - replace 1 with (IZR mbr_area / IZR mbr_area) by (field; lra).
    unfold Rdiv. apply Rmult_le_compat_r; [| exact Hb].
    left. apply Rinv_0_lt_compat. lra.
Qed.

(** C1 and the docstring's "float in [0, 1]" fail on [bright_dot]: when the
    rectangle of its contour is rasterised to the centre pixel alone, the
    region area is the pixel value 255, the rectangle area is 1, and the
    bounding-rectangle ratio is 255. *)
Theorem mbr_ratio_of_bright_pixel (env : Env) (image : loc) (method : string)
  (w : world) (cnt : contour) :
  is_mbr method = true ->
  mem w image = bright_dot ->
  findContours env bright_dot RETR_EXTERNAL CHAIN_APPROX_SIMPLE = [cnt] ->
  (forall r c, polygon env (mbr_box env cnt) r c = ((r =? 1) && (c =? 1))%Z) ->
  fst (rectangularity env image method w) = Ret (Some 255) /\ 1 < 255.
Proof.
  intros Hm Himg Hc Hpoly. split; [| lra].
  rewrite (rectangularity_mbr _ _ _ Hm).
  rewrite <- Himg in Hc.
  destruct (get_mbr_areas_found _ _ _ _ _ Hc) as (w' & E & _).
  rewrite (paint_ext _ _ _ _ Hpoly) in E. rewrite Himg in E.
  rewrite (bind_ret_eq _ _ _ _ _ E). cbn [fst snd].
  change (np_sum bright_dot) with 255%Z.
  change (np_sum (paint (fun r c => ((r =? 1) && (c =? 1))%Z) 1 bright_dot))
    with 1%Z.
  unfold bind, lift. rewrite pdiv_defined by lra. cbn [fst ret].
  do 2 f_equal. field.
Qed.

Lemma single_pixel_box (rot : image -> Z -> image) (x y : Z) :
  (0 <= x)%Z -> (0 <= y)%Z ->
  mbr_box (single_pixel_env rot) [(x, y)] = [(x, y); (x, y); (x, y); (x, y)].
Proof.
  intros Hx Hy. unfold mbr_box.
  cbn [minAreaRect boxPoints int0 single_pixel_env map fst snd].
  replace (IZR x - 0 / 2) with (IZR x) by lra.
  replace (IZR x + 0 / 2) with (IZR x) by lra.
  replace (IZR y - 0 / 2) with (IZR y) by lra.
  replace (IZR y + 0 / 2) with (IZR y) by lra.
  rewrite !trunc_IZR by assumption. reflexivity.
Qed.

Lemma mbr_ratio_of_bright_pixel_witness :
  fst (rectangularity (single_pixel_env no_rotation) 0%nat "mbr"
                      (world_with bright_dot))
  = Ret (Some 255) /\ 1 < 255.
Proof.
  apply (mbr_ratio_of_bright_pixel (single_pixel_env no_rotation) 0%nat "mbr"
           (world_with bright_dot) [(1, 1)%Z]).
  - reflexivity.
  - reflexivity.
  - reflexivity.
  - intros r c. rewrite single_pixel_box by lia.
    cbn [polygon single_pixel_env existsb fst snd].
    rewrite (Z.eqb_sym 1 c), (Z.eqb_sym 1 r).
    destruct (c =? 1)%Z, (r =? 1)%Z; reflexivity.
Defined.

(** ** A rotation that moves the shape out of the frame *)

Lemma orientation_descriptor_none (env : Env) (method : string) (l : loc)
  (w : world) :
  findContours env (mem w l) RETR_EXTERNAL CHAIN_APPROX_SIMPLE = [] ->
  orientation_descriptor env method l w = (Raise IndexError, w).
Proof.
  intro H. unfold orientation_descriptor. destruct (is_r_d method).
  - apply get_rectangular_discrepancy_descriptor_none. exact H.
  - apply get_robust_mbr_discrepancy_none. exact H.
Qed.

Lemma framed_orientation_descriptor (env : Env) (method : string) (l : loc) :
  framed (orientation_descriptor env method l).
Proof.
  unfold orientation_descriptor. destruct (is_r_d method); auto with framed.
Qed.

(** C5 fails where [imutils.rotate] leaves no foreground in the frame: the
    0-degree descriptor returns, the mask turned by 45 degrees has no
    contour, and "r_d" and "r_r" end in the error of [contours[0]]. *)
Theorem discrepancy_raises_when_rotation_clears_mask (env : Env)
  (image : loc) (method : string) (w w1 : world) (s : R) :
  is_r_d method || is_r_r method = true ->
  orientation_descriptor env method image (with_rotated env image w)
  = (Ret s, w1) ->
  findContours env (rotate env (mem w image) 45)
               RETR_EXTERNAL CHAIN_APPROX_SIMPLE = [] ->
  rectangularity env image method w = (Raise IndexError, w1).
Proof.
  intros Hm Hs Hnone.
  rewrite (rectangularity_two_orientations _ _ _ Hm).
  rewrite two_orientations_run.
  rewrite (bind_ret_eq _ _ _ _ _ Hs).
  apply bind_raise_eq. apply orientation_descriptor_none.
  destruct (framed_orientation_descriptor env method image
              (with_rotated env image w)) as [_ Hmem].
  rewrite Hs in Hmem. cbn [snd] in Hmem.
  rewrite Hmem by (unfold with_rotated, alloc; cbn; lia).
  rewrite with_rotated_new. exact Hnone.
Qed.

Lemma discrepancy_raises_when_rotation_clears_mask_witness :
  rectangularity (single_pixel_env out_of_frame) 0%nat "r_d"
                 (world_with corner_dot)
  = (Raise IndexError,
     with_rotated (single_pixel_env out_of_frame) 0%nat
                  (world_with corner_dot)).
Proof.
  apply (discrepancy_raises_when_rotation_clears_mask
           (single_pixel_env out_of_frame) 0%nat "r_d"
           (world_with corner_dot) _ 0).
  - reflexivity.
  - apply (get_rectangular_discrepancy_descriptor_no_area _ _ _ [(0, 0)%Z]);
      reflexivity.
  - reflexivity.
Defined.

(** C7 fails on the code where the mask turned by 45 degrees has no contour:
    the 0-degree descriptor has returned a score [s], so the maximum over
    the two orientations would be at least [s], but "r_d" and "r_r" return
    no score at all and end in the error of [contours[0]]. *)
Theorem no_maximum_when_rotation_clears_mask (env : Env) (image : loc)
  (method : string) (w : world) (s : R) :
  is_r_d method || is_r_r method = true ->
  fst (orientation_descriptor env method image (with_rotated env image w))
  = Ret s ->
  findContours env (rotate env (mem w image) 45)
               RETR_EXTERNAL CHAIN_APPROX_SIMPLE = [] ->
  fst (rectangularity env image method w) = Raise IndexError /\
  forall score, fst (rectangularity env image method w) <> Ret (Some score).
Proof.
  intros Hm Hs Hnone.
  assert (E : fst (rectangularity env image method w) = Raise IndexError).
  { rewrite (rectangularity_two_orientations _ _ _ Hm).
    rewrite two_orientations_run.
    destruct (framed_orientation_descriptor env method image
                (with_rotated env image w)) as [_ Hmem].
    destruct (orientation_descriptor env method image
                (with_rotated env image w)) as [res w1] eqn:E0.
    cbn [fst] in Hs. subst res. cbn [snd] in Hmem.
    rewrite (bind_ret_eq _ _ _ _ _ E0).
    rewrite (bind_raise_eq _ _ _ w1 IndexError); [reflexivity |].
    apply orientation_descriptor_none.
    rewrite Hmem by (unfold with_rotated, alloc; cbn; lia).
    rewrite with_rotated_new. exact Hnone. }
  split; [exact E |].
  intros score H. rewrite E in H. discriminate H.
Qed.

(** On [corner_dot] the 0-degree robust descriptor is 1: [A1 = A2 = 1],
    [A3 = 0], [I = 1], and [|1 - (-1)| = 2] is clamped. *)
Lemma robust_mbr_on_corner_dot :
  fst (get_robust_mbr_discrepancy
         (single_pixel_env out_of_frame) 0%nat
         (with_rotated (single_pixel_env out_of_frame) 0%nat
                       (world_with corner_dot)))
  = Ret 1.
Proof.
  set (W := with_rotated (single_pixel_env out_of_frame) 0%nat
                         (world_with corner_dot)).
  unfold get_robust_mbr_discrepancy.
  rewrite (bind_ret_eq _ _ _ _ _
             (get_contour_single (single_pixel_env out_of_frame) 0%nat
                RETR_EXTERNAL CHAIN_APPROX_SIMPLE W [(0, 0)%Z] eq_refl)).
  destruct (get_mbr_areas_found (single_pixel_env out_of_frame) 0%nat
              W [(0, 0)%Z] [] eq_refl) as (w' & E & _ & _ & Hk).
  rewrite (bind_ret_eq _ _ _ _ _ E). cbn [fst snd].
  unfold bind, lift, load.
  rewrite sides_for_area_zero by reflexivity. cbn [fst snd].
  rewrite Hk by (cbn; lia).
  change (mem W 0%nat) with corner_dot.
  rewrite single_pixel_box by lia.
  change (np_sum (paint (polygon (single_pixel_env out_of_frame)
                                 [(0, 0); (0, 0); (0, 0); (0, 0)]%Z)
                        1 corner_dot)) with 1%Z.
  change (np_sum (box_image corner_dot [(0, 0)%Z])) with 1%Z.
  change (np_sum corner_dot) with 1%Z.
  rewrite pdiv_defined by lra. cbn [fst snd].
  replace (1 - (0 * 0 - 1 + (1 - 1)) / 1) with 2 by lra.
  rewrite Rabs_pos_eq by lra.
  destruct (Rgt_dec 2 1) as [_ | H]; [reflexivity | lra].
Qed.

Lemma no_maximum_when_rotation_clears_mask_witness :
  fst (rectangularity (single_pixel_env out_of_frame) 0%nat "Robust MBR"
                      (world_with corner_dot)) = Raise IndexError /\
  forall score,
    fst (rectangularity (single_pixel_env out_of_frame) 0%nat "Robust MBR"
                        (world_with corner_dot)) <> Ret (Some score).
Proof.
  apply (no_maximum_when_rotation_clears_mask
           (single_pixel_env out_of_frame) 0%nat "Robust MBR"
           (world_with corner_dot) 1).
  - reflexivity.
  - exact robust_mbr_on_corner_dot.
  - reflexivity.
Defined.

(** ** The clipped region inside the robust descriptor

    On [centre_dot] the robust descriptor is computed from [A1 = 1],
    [A2 = 0] (the empty slice), [A3 = 0] and [I = 1], and is 0. *)

Lemma painted_centre_dot :
  np_sum (paint (polygon (single_pixel_env no_rotation)
                         (mbr_box (single_pixel_env no_rotation) [(1, 1)%Z]))
                1 centre_dot) = 1%Z.
Proof. rewrite single_pixel_box by lia. reflexivity. Qed.

Lemma robust_mbr_on_centre_dot :
  fst (get_robust_mbr_discrepancy (single_pixel_env no_rotation) 0%nat
                                  (world_with centre_dot))
  = Ret 0.
Proof.
  unfold get_robust_mbr_discrepancy.
  rewrite (bind_ret_eq _ _ _ _ _
             (get_contour_single (single_pixel_env no_rotation) 0%nat
                RETR_EXTERNAL CHAIN_APPROX_SIMPLE (world_with centre_dot)
                [(1, 1)%Z] eq_refl)).
  destruct (get_mbr_areas_found (single_pixel_env no_rotation) 0%nat
              (world_with centre_dot) [(1, 1)%Z] [] eq_refl)
    as (w' & E & _ & _ & Hk).
  rewrite (bind_ret_eq _ _ _ _ _ E). cbn [fst snd].
  unfold bind, lift, load.
  rewrite sides_for_area_zero by reflexivity. cbn [fst snd].
  rewrite Hk by (cbn; lia).
  change (mem (world_with centre_dot) 0%nat) with centre_dot.
  rewrite painted_centre_dot.
  change (np_sum (box_image centre_dot [(1, 1)%Z])) with 0%Z.
  change (np_sum centre_dot) with 1%Z.
  rewrite pdiv_defined by lra. cbn [fst snd].
  replace (1 - (0 * 0 - 0 + (1 - 0)) / 1) with 0 by lra.
  rewrite Rabs_R0.
  destruct (Rgt_dec 0 1) as [H | _]; [lra | reflexivity].
Qed.

(** * Further properties of the code *)

(** ** [get_sides_based_on_moments] *)

(** X1: the moments of a filled w x h rectangle lying along the axes, with
    [w >= h > 0], give back the sides [(w, h)]. *)
Theorem sides_of_rectangle_moments (w h : R) :
  0 < h -> h <= w ->
  get_sides_based_on_moments (rectangle_moments w h) = Ret (w, h).
Proof.
  intros Hh Hw. unfold get_sides_based_on_moments, rectangle_moments.
  cbn [m00 mu20 mu02 mu11].
  assert (Hwh : 0 < w * h) by nra.
  destruct (Req_dec_T (w * h) 0) as [E | _]; [lra |].
  set (d := w * h * (w * w - h * h) / 12).
  assert (Hd : 0 <= d).
  { unfold d. assert (0 <= w * w - h * h) by nra.
    assert (0 <= w * h * (w * w - h * h)) by (apply Rmult_le_pos; lra). lra. }
  replace ((w ^ 3 * h / 12 - w * h ^ 3 / 12) ^ 2 + 4 * 0 ^ 2) with (d * d)
    by (unfold d; field).
  rewrite msqrt_defined by nra. rewrite (sqrt_of_square d Hd). cbn [rbind].
  rewrite pdiv_defined by lra. cbn [rbind].
  replace (6 * (w ^ 3 * h / 12 + w * h ^ 3 / 12 + d) / (w * h)) with (w * w)
    by (unfold d; field; split; lra).
  rewrite msqrt_defined by nra. rewrite sqrt_of_square by lra. cbn [rbind].
  rewrite pdiv_defined by lra. cbn [rbind].
  replace (6 * (w ^ 3 * h / 12 + w * h ^ 3 / 12 - d) / (w * h)) with (h * h)
    by (unfold d; field; split; lra).
  rewrite msqrt_defined by nra. rewrite sqrt_of_square by lra. cbn [rbind].
  reflexivity.
Qed.

Lemma sides_of_rectangle_moments_witness :
  get_sides_based_on_moments (rectangle_moments 5 2) = Ret (5, 2).
Proof. apply sides_of_rectangle_moments; lra. Defined.

Lemma discriminant_square (M : Moments) :
  discriminant M * discriminant M = (mu20 M - mu02 M) ^ 2 + 4 * mu11 M ^ 2.
Proof. unfold discriminant. apply sqrt_sqrt. apply radicand_nonneg. Qed.

(** X2: whenever [get_sides_based_on_moments] returns a pair on a
    non-zero [m00], the squares of the two sides have the sum
    [12 * (mu20 + mu02) / m00] and the product
    [144 * (mu20 * mu02 - mu11^2) / m00^2]: they are the two roots of the
    quadratic of the second-order moments, and [(a * b)^2], the square of
    the area [A3] of the estimated rectangle, is fixed by the determinant
    of the moments. *)
Theorem sides_squares_sum_and_product (M : Moments) (a b : R) :
  m00 M <> 0 ->
  get_sides_based_on_moments M = Ret (a, b) ->
  a ^ 2 + b ^ 2 = 12 * (mu20 M + mu02 M) / m00 M /\
  (a * b) ^ 2 = 144 * (mu20 M * mu02 M - mu11 M ^ 2) / m00 M ^ 2.
Proof.
  intros Hm H.
  destruct (get_sides_inv M a b Hm H) as (Hqa & Hqb & -> & ->).
  pose proof (discriminant_square M) as Hsq.
  set (qa := 6 * (mu20 M + mu02 M + discriminant M) / m00 M) in *.
  set (qb := 6 * (mu20 M + mu02 M - discriminant M) / m00 M) in *.
  assert (Ea : sqrt qa ^ 2 = qa) by (apply pow2_sqrt; exact Hqa).
  assert (Eb : sqrt qb ^ 2 = qb) by (apply pow2_sqrt; exact Hqb).
  split.
  - rewrite Ea, Eb. unfold qa, qb. field. exact Hm.
  - rewrite Rpow_mult_distr, Ea, Eb. unfold qa, qb.
    replace (6 * (mu20 M + mu02 M + discriminant M) / m00 M
             * (6 * (mu20 M + mu02 M - discriminant M) / m00 M))
      with (36 * ((mu20 M + mu02 M) * (mu20 M + mu02 M)
                  - discriminant M * discriminant M)
            / m00 M ^ 2) by (field; exact Hm).
    rewrite Hsq. field. exact Hm.
Qed.

Lemma sides_squares_sum_and_product_witness :
  4 ^ 2 + 3 ^ 2 = 12 * (mu20 rectangle_4x3 + mu02 rectangle_4x3)
                  / m00 rectangle_4x3 /\
  (4 * 3) ^ 2 = 144 * (mu20 rectangle_4x3 * mu02 rectangle_4x3
                       - mu11 rectangle_4x3 ^ 2) / m00 rectangle_4x3 ^ 2.
Proof.
  apply sides_squares_sum_and_product.
  - cbn [m00 rectangle_4x3]. lra.
  - exact sides_of_rectangle_4x3.
Defined.

(** X3: [get_sides_based_on_moments] never divides by zero: when it fails,
    it is with the [ValueError] of a square root, [m00] is not zero and one
    of the two quotients under the outer roots is negative. *)
Theorem sides_fail_only_on_a_negative_quotient (M : Moments) (e : exn) :
  get_sides_based_on_moments M = Raise e ->
  e = ValueError /\ m00 M <> 0 /\
  (6 * (mu20 M + mu02 M + discriminant M) / m00 M < 0 \/
   6 * (mu20 M + mu02 M - discriminant M) / m00 M < 0).
Proof.
  unfold get_sides_based_on_moments.
  destruct (Req_dec_T (m00 M) 0) as [E | Hm]; [discriminate |].
  rewrite (msqrt_defined _ (radicand_nonneg M)). cbn [rbind].
  fold (discriminant M).
  rewrite (pdiv_defined _ _ Hm). cbn [rbind].
  unfold msqrt at 1.
  destruct (Rlt_dec (6 * (mu20 M + mu02 M + discriminant M) / m00 M) 0)
    as [Ha | Ha]; cbn [rbind].
  - intro H. injection H as <-. auto.
  - rewrite (pdiv_defined _ _ Hm). cbn [rbind].
    unfold msqrt.
    destruct (Rlt_dec (6 * (mu20 M + mu02 M - discriminant M) / m00 M) 0)
      as [Hb | Hb]; cbn [rbind].
    + intro H. injection H as <-. auto.
    + discriminate.
Qed.

Lemma sides_of_inconsistent_moments :
  get_sides_based_on_moments inconsistent_moments = Raise ValueError.
Proof.
  unfold get_sides_based_on_moments, inconsistent_moments.
  cbn [m00 mu20 mu02 mu11].
  destruct (Req_dec_T 1 0) as [E | _]; [lra |].
  replace ((1 - 1) ^ 2 + 4 * 2 ^ 2) with (4 * 4) by lra.
  rewrite msqrt_defined by lra. rewrite sqrt_of_square by lra. cbn [rbind].
  rewrite pdiv_defined by lra. cbn [rbind].
  replace (6 * (1 + 1 + 4) / 1) with (6 * 6) by lra.
  rewrite msqrt_defined by lra. cbn [rbind].
  rewrite pdiv_defined by lra. cbn [rbind].
  unfold msqrt. destruct (Rlt_dec (6 * (1 + 1 - 4) / 1) 0); [reflexivity | lra].
Qed.

Lemma sides_fail_only_on_a_negative_quotient_witness :
  ValueError = ValueError /\ m00 inconsistent_moments <> 0 /\
  (6 * (mu20 inconsistent_moments + mu02 inconsistent_moments
        + discriminant inconsistent_moments) / m00 inconsistent_moments < 0 \/
   6 * (mu20 inconsistent_moments + mu02 inconsistent_moments
        - discriminant inconsistent_moments) / m00 inconsistent_moments < 0).
Proof.
  exact (sides_fail_only_on_a_negative_quotient inconsistent_moments ValueError
           sides_of_inconsistent_moments).
Defined.

(** ** [get_contour] *)

(** X4: [get_contour] raises [IndexError] when no contour is found, and
    otherwise returns the first contour however many there are; it prints
    the diagnostic exactly when there is more than one, and that is all it
    changes. *)
Theorem get_contour_takes_the_first (env : Env) (l : loc)
  (mode : retrieval_mode) (method : approx_method) (w : world) :
  match findContours env (mem w l) mode method with
  | [] => get_contour env l mode method w = (Raise IndexError, w)
  | [cnt] => get_contour env l mode method w = (Ret cnt, w)
  | cnt :: _ :: _ =>
    get_contour env l mode method w
    = (Ret cnt, World (mem w) (brk w) (stdout w ++ [blob_message]))
  end.
Proof.
  unfold get_contour, bind, load. cbn [mem].
  destruct (findContours env (mem w l) mode method) as [| c1 [| c2 rest]];
    reflexivity.
Qed.

(** ** The two per-orientation descriptors *)

Ltac run_cases :=
  repeat (cbv zeta; cbn [fst snd];
          match goal with
          | |- context [match ?x with (_, _) => _ end] => destruct x
          | |- context [match ?x with Ret _ => _ | Raise _ => _ end] =>
            destruct x
          | |- context [if ?b then _ else _] => destruct b
          end).

Lemma rd_range (env : Env) (l : loc) (w : world) (r : R) :
  fst (get_rectangular_discrepancy_descriptor env l w) = Ret r ->
  0 <= r <= 1.
Proof.
  unfold get_rectangular_discrepancy_descriptor, bind, lift, load, ret.
  run_cases; cbn [fst]; intro H; try discriminate H; injection H as <-;
    try lra.
  split; [apply Rabs_pos | lra].
Qed.

Lemma rr_range (env : Env) (l : loc) (w : world) (r : R) :
  fst (get_robust_mbr_discrepancy env l w) = Ret r ->
  0 <= r <= 1.
Proof.
  unfold get_robust_mbr_discrepancy, bind, lift, load, ret.
  run_cases; cbn [fst]; intro H; try discriminate H; injection H as <-;
    try lra.
  split; [apply Rabs_pos | lra].
Qed.

(** X5: whenever [get_rectangular_discrepancy_descriptor] or
    [get_robust_mbr_discrepancy] returns, the value is in [0, 1]: an
    absolute value, clamped at 1, or the 0 of an empty estimate. *)
Theorem descriptors_in_unit_interval (env : Env) (l : loc) (w : world)
  (r : R) :
  (fst (get_rectangular_discrepancy_descriptor env l w) = Ret r ->
   0 <= r <= 1) /\
  (fst (get_robust_mbr_discrepancy env l w) = Ret r -> 0 <= r <= 1).
Proof. split; [apply rd_range | apply rr_range]. Qed.

Lemma descriptors_in_unit_interval_witness : 0 <= 0 <= 1.
Proof.
  exact (proj2 (descriptors_in_unit_interval (single_pixel_env no_rotation)
                  0%nat (world_with centre_dot) 0)
               robust_mbr_on_centre_dot).
Defined.

Lemma get_sides_raises_value_error (M : Moments) (e : exn) :
  get_sides_based_on_moments M = Raise e -> e = ValueError.
Proof.
  unfold get_sides_based_on_moments.
  destruct (Req_dec_T (m00 M) 0) as [E | Hm]; [discriminate |].
  rewrite (msqrt_defined _ (radicand_nonneg M)). cbn [rbind].
  rewrite (pdiv_defined _ _ Hm). cbn [rbind].
  unfold msqrt at 1. destruct (Rlt_dec _ 0); cbn [rbind].
  - intro H. injection H as <-. reflexivity.
  - rewrite (pdiv_defined _ _ Hm). cbn [rbind].
    unfold msqrt. destruct (Rlt_dec _ 0); cbn [rbind].
    + intro H. injection H as <-. reflexivity.
    + discriminate.
Qed.

Lemma get_sides_nonneg (M : Moments) (a b : R) :
  get_sides_based_on_moments M = Ret (a, b) -> 0 <= a /\ 0 <= b.
Proof.
  intro H. destruct (Req_dec_T (m00 M) 0) as [E | N].
  - rewrite (sides_for_area_zero M E) in H. injection H as <- <-. lra.
  - destruct (get_sides_inv M a b N H) as (_ & _ & -> & ->).
    split; apply sqrt_pos.
Qed.

(** The descriptor once a contour is found, as a computation on numbers. *)
Lemma get_rectangular_discrepancy_descriptor_found (env : Env) (l : loc)
  (w : world) (cnt : contour) (rest : list contour) :
  findContours env (mem w l) RETR_EXTERNAL CHAIN_APPROX_SIMPLE = cnt :: rest ->
  fst (get_rectangular_discrepancy_descriptor env l w)
  = (ab <- get_sides_based_on_moments (cv_moments env cnt) ;;
     let A1 := IZR (np_sum (mem w l)) in
     let A2 := IZR (np_sum (box_image (mem w l) cnt)) in
     let A3 := fst ab * snd ab in
     if Req_dec_T A3 0 then Ret 0
     else
       q <- pdiv (A3 - A2 + (A1 - A2)) A3 ;;
       if Rgt_dec (Rabs (1 - q)) 1 then Ret 1 else Ret (Rabs (1 - q)))%res.
Proof.
  intro H.
  destruct (get_contour_first _ _ _ _ _ _ _ H) as (w0 & E & Hmem & _).
  unfold get_rectangular_discrepancy_descriptor.
  rewrite (bind_ret_eq _ _ _ _ _ E).
  unfold bind, lift, load, ret. rewrite Hmem.
  destruct (get_sides_based_on_moments (cv_moments env cnt)) as [[a b] | e];
    cbn [rbind fst snd]; [| reflexivity].
  destruct (Req_dec_T (a * b) 0); [reflexivity |].
  destruct (pdiv (a * b - IZR (np_sum (box_image (mem w l) cnt))
                  + (IZR (np_sum (mem w l))
                     - IZR (np_sum (box_image (mem w l) cnt)))) (a * b));
    cbn [rbind fst]; [| reflexivity].
  destruct (Rgt_dec (Rabs (1 - a0)) 1); reflexivity.
Qed.

(** X7: [get_rectangular_discrepancy_descriptor] never ends in a division
    fault (the guard [B == 0] comes first).  It fails with [IndexError]
    exactly when no contour is found, and otherwise only with the
    [ValueError] of a square root in the side estimate. *)
Theorem discrepancy_descriptor_failures (env : Env) (l : loc) (w : world)
  (e : exn) :
  fst (get_rectangular_discrepancy_descriptor env l w) = Raise e ->
  (e = IndexError /\
   findContours env (mem w l) RETR_EXTERNAL CHAIN_APPROX_SIMPLE = []) \/
  (e = ValueError /\
   exists cnt rest,
     findContours env (mem w l) RETR_EXTERNAL CHAIN_APPROX_SIMPLE
     = cnt :: rest /\
     get_sides_based_on_moments (cv_moments env cnt) = Raise ValueError).
Proof.
  destruct (findContours env (mem w l) RETR_EXTERNAL CHAIN_APPROX_SIMPLE)
    as [| cnt rest] eqn:Hc.
  - rewrite (get_rectangular_discrepancy_descriptor_none _ _ _ Hc).
    cbn [fst]. intro H. injection H as <-. left. split; reflexivity.
  - rewrite (get_rectangular_discrepancy_descriptor_found _ _ _ _ _ Hc).
    destruct (get_sides_based_on_moments (cv_moments env cnt))
      as [[a b] | e0] eqn:Es; cbn [rbind fst snd].
    + destruct (Req_dec_T (a * b) 0) as [Z | N]; [discriminate |].
      rewrite (pdiv_defined _ _ N). cbn [rbind].
      destruct (Rgt_dec _ 1); discriminate.
    + intro H. injection H as <-.
      pose proof (get_sides_raises_value_error _ _ Es) as ->.
      right. split; [reflexivity |]. exists cnt, rest.
      split; [reflexivity | exact Es].
Qed.

Lemma discrepancy_descriptor_failures_witness :
  (IndexError = IndexError /\
   findContours (single_pixel_env no_rotation)
                (mem (world_with blank) 0%nat)
                RETR_EXTERNAL CHAIN_APPROX_SIMPLE = []) \/
  (IndexError = ValueError /\
   exists cnt rest,
     findContours (single_pixel_env no_rotation)
                  (mem (world_with blank) 0%nat)
                  RETR_EXTERNAL CHAIN_APPROX_SIMPLE = cnt :: rest /\
     get_sides_based_on_moments
       (cv_moments (single_pixel_env no_rotation) cnt) = Raise ValueError).
Proof.
  apply discrepancy_descriptor_failures.
  rewrite get_rectangular_discrepancy_descriptor_none; reflexivity.
Defined.

(** X8: a first contour that encloses no area ([m00 = 0]: one pixel, or a
    line one pixel wide) makes the rectangular-discrepancy descriptor 0,
    whatever the mask and however many contours were found. *)
Theorem discrepancy_descriptor_of_flat_contour (env : Env) (l : loc)
  (w : world) (cnt : contour) (rest : list contour) :
  findContours env (mem w l) RETR_EXTERNAL CHAIN_APPROX_SIMPLE = cnt :: rest ->
  m00 (cv_moments env cnt) = 0 ->
  fst (get_rectangular_discrepancy_descriptor env l w) = Ret 0.
Proof.
  intros Hc Hm.
  rewrite (get_rectangular_discrepancy_descriptor_found _ _ _ _ _ Hc).
  rewrite (sides_for_area_zero _ Hm). cbn [rbind fst snd].
  destruct (Req_dec_T (0 * 0) 0) as [_ | N]; [reflexivity | lra].
Qed.

Lemma discrepancy_descriptor_of_flat_contour_witness :
  fst (get_rectangular_discrepancy_descriptor
         (single_pixel_env no_rotation) 0%nat (world_with centre_dot))
  = Ret 0.
Proof.
  apply (discrepancy_descriptor_of_flat_contour _ _ _ [(1, 1)%Z] []);
    reflexivity.
Defined.

(** X9: with a non-empty estimated rectangle ([a * b <> 0]) the
    rectangular-discrepancy descriptor is [|2 * A2 - A1| / (a * b)], capped
    at 1: the estimated area cancels out of the numerator. *)
Theorem discrepancy_descriptor_closed_form (env : Env) (l : loc) (w : world)
  (cnt : contour) (rest : list contour) (a b : R) :
  findContours env (mem w l) RETR_EXTERNAL CHAIN_APPROX_SIMPLE = cnt :: rest ->
  get_sides_based_on_moments (cv_moments env cnt) = Ret (a, b) ->
  a * b <> 0 ->
  let A1 := IZR (np_sum (mem w l)) in
  let A2 := IZR (np_sum (box_image (mem w l) cnt)) in
  fst (get_rectangular_discrepancy_descriptor env l w)
  = Ret (Rmin 1 (Rabs (2 * A2 - A1) / (a * b))).
Proof.
  intros Hc Hs Hab A1 A2.
  rewrite (get_rectangular_discrepancy_descriptor_found _ _ _ _ _ Hc).
  rewrite Hs. cbn [rbind fst snd]. fold A1 A2.
  destruct (Req_dec_T (a * b) 0) as [Z | _]; [contradiction |].
  rewrite (pdiv_defined _ _ Hab). cbn [rbind].
  destruct (get_sides_nonneg _ _ _ Hs) as [Ha Hb].
  assert (Hpos : 0 < a * b).
  { assert (0 <= a * b) by (apply Rmult_le_pos; assumption). lra. }
  assert (E : Rabs (1 - (a * b - A2 + (A1 - A2)) / (a * b))
              = Rabs (2 * A2 - A1) / (a * b)).
  { assert (Ha0 : a <> 0) by (intro; subst a; lra).
    assert (Hb0 : b <> 0) by (intro; subst b; lra).
    replace (1 - (a * b - A2 + (A1 - A2)) / (a * b))
      with ((2 * A2 - A1) * / (a * b)) by (field; tauto).
    rewrite Rabs_mult. rewrite (Rabs_pos_eq (/ (a * b))).
    - reflexivity.
    - left. apply Rinv_0_lt_compat. exact Hpos. }
  rewrite E.
  destruct (Rgt_dec (Rabs (2 * A2 - A1) / (a * b)) 1) as [Hgt | Hle].
  - rewrite Rmin_left by lra. reflexivity.
  - rewrite Rmin_right by lra. reflexivity.
Qed.

Lemma discrepancy_descriptor_closed_form_witness :
  fst (get_rectangular_discrepancy_descriptor block_env 0%nat
                                              (world_with block))
  = Ret (1 / 3).
Proof.
  rewrite (discrepancy_descriptor_closed_form block_env 0%nat
             (world_with block) block_contour [] 4 3 eq_refl
             sides_of_rectangle_4x3) by lra.
  change (IZR (np_sum (mem (world_with block) 0%nat))) with 20.
  change (IZR (np_sum (box_image (mem (world_with block) 0%nat)
                                 block_contour))) with 12.
  replace (2 * 12 - 20) with 4 by lra.
  rewrite Rabs_pos_eq by lra.
  rewrite Rmin_right by lra. f_equal. lra.
Defined.

(** ** The two-orientation methods *)

Lemma orientation_descriptor_range (env : Env) (method : string) (l : loc)
  (w : world) (r : R) :
  fst (orientation_descriptor env method l w) = Ret r -> 0 <= r <= 1.
Proof.
  unfold orientation_descriptor. destruct (is_r_d method).
  - apply rd_range.
  - apply rr_range.
Qed.

(** X6: whenever "r_d" or "r_r" returns a score, it is in [0, 1]. *)
Theorem two_orientation_methods_in_unit_interval (env : Env) (image : loc)
  (method : string) (w : world) (s : R) :
  is_r_d method || is_r_r method = true ->
  fst (rectangularity env image method w) = Ret (Some s) ->
  0 <= s <= 1.
Proof.
  intros Hm. rewrite (rectangularity_two_orientations _ _ _ Hm).
  rewrite two_orientations_run. unfold bind.
  destruct (orientation_descriptor env method image
              (with_rotated env image w)) as [[s0 | e] w1] eqn:E0;
    [| discriminate].
  destruct (orientation_descriptor env method (brk w) w1) as [[r0 | e] w2]
    eqn:E1; [| discriminate].
  pose proof (orientation_descriptor_range env method image
                (with_rotated env image w) s0) as H0.
  pose proof (orientation_descriptor_range env method (brk w) w1 r0) as H1.
  rewrite E0 in H0. rewrite E1 in H1. cbn [fst] in H0, H1.
  specialize (H0 eq_refl). specialize (H1 eq_refl).
  destruct (Rgt_dec s0 r0); cbn [fst ret]; intro H; injection H as <-;
    assumption.
Qed.

Lemma discrepancy_method_on_centre_dot :
  fst (rectangularity (single_pixel_env no_rotation) 0%nat "r_d"
                      (world_with centre_dot))
  = Ret (Some 0).
Proof.
  rewrite rectangularity_two_orientations by reflexivity.
  rewrite (two_orientations_max (single_pixel_env no_rotation) _ 0%nat
             (world_with centre_dot)
             (with_rotated (single_pixel_env no_rotation) 0%nat
                           (world_with centre_dot))
             (with_rotated (single_pixel_env no_rotation) 0%nat
                           (world_with centre_dot)) 0 0).
  - cbn [fst]. rewrite Rmax_left by lra. reflexivity.
  - apply (get_rectangular_discrepancy_descriptor_no_area _ _ _ [(1, 1)%Z]);
      reflexivity.
  - apply (get_rectangular_discrepancy_descriptor_no_area _ _ _ [(1, 1)%Z]);
      reflexivity.
Qed.

Lemma two_orientation_methods_in_unit_interval_witness : 0 <= 0 <= 1.
Proof.
  exact (two_orientation_methods_in_unit_interval
           (single_pixel_env no_rotation) 0%nat "r_d" (world_with centre_dot)
           0 eq_refl discrepancy_method_on_centre_dot).
Defined.

(** ** The agreement score *)

Lemma pdiv_inv (x y r : R) : pdiv x y = Ret r -> y <> 0 /\ r = x / y.
Proof.
  unfold pdiv. destruct (Req_dec_T y 0) as [E | N]; intro H.
  - discriminate H.
  - injection H as <-. split; [assumption | reflexivity].
Qed.

(** The relative difference of two non-negative numbers is in [0, 1]. *)
Lemma relative_difference_range (x y : R) :
  0 <= x -> 0 <= y -> x + y <> 0 -> 0 <= Rabs (x - y) / (x + y) <= 1.
Proof.
  intros Hx Hy Hs. assert (Hpos : 0 < x + y) by lra.
  assert (Hinv : 0 < / (x + y)) by (apply Rinv_0_lt_compat; exact Hpos).
  assert (Habs : Rabs (x - y) <= x + y).
  { apply Rabs_le. lra. }
  pose proof (Rabs_pos (x - y)) as Hnn.
  unfold Rdiv. split.
  - apply Rmult_le_pos; lra.
  - replace 1 with ((x + y) * / (x + y)) by (field; lra).
    apply Rmult_le_compat_r; lra.
Qed.

Lemma root_plus_positive (A P : R) :
  0 < A -> 0 <= root_minus A P -> 0 < root_plus A P.
Proof.
  unfold root_minus, root_plus. intros HA Hr.
  set (s := sqrt (Rabs (P ^ 2 - 16 * A))) in *.
  assert (Hs : 0 <= s) by apply sqrt_pos.
  assert (Hss : s * s = Rabs (P ^ 2 - 16 * A))
    by (apply sqrt_sqrt; apply Rabs_pos).
  destruct (Rlt_dec 0 ((P + s) / 4)) as [H | H]; [exact H | exfalso].
  assert (HP : P = 0) by lra. assert (Hs0 : s = 0) by lra.
  rewrite HP, Hs0 in Hss.
  replace (0 ^ 2 - 16 * A) with (- (16 * A)) in Hss by ring.
  rewrite Rabs_Ropp, Rabs_pos_eq in Hss by lra. lra.
Qed.

Lemma agreement_score_range (a1 b1 A P s : R) :
  0 <= a1 -> 0 <= b1 -> 0 <= A ->
  agreement_score a1 b1 A P = Ret s -> 0 <= s <= 1.
Proof.
  intros Ha1 Hb1 HA. unfold agreement_score.
  rewrite a2_1_value, a2_2_value. cbn [rbind].
  pose proof (root_minus_le_plus A P) as Hle.
  unfold ltb.
  destruct (Rlt_dec (root_plus A P) 0) as [H1 | H1]; cbn [orb].
  { intro H. injection H as <-. lra. }
  destruct (Rlt_dec (root_minus A P) 0) as [H2 | H2].
  { intro H. injection H as <-. lra. }
  set (a2 := if Rgt_dec (root_plus A P) (root_minus A P)
             then root_plus A P else root_minus A P).
  assert (Ha2 : 0 <= a2) by (unfold a2; destruct (Rgt_dec _ _); lra).
  destruct (pdiv A a2) as [b2 | e] eqn:Eb; cbn [rbind]; [| discriminate].
  apply pdiv_inv in Eb. destruct Eb as [Hn ->].
  assert (Hb2 : 0 <= A / a2).
  { unfold Rdiv. apply Rmult_le_pos; [exact HA |].
    left. apply Rinv_0_lt_compat. lra. }
  destruct (pdiv (Rabs (a1 - a2)) (a1 + a2)) as [t1 | e] eqn:E1;
    cbn [rbind]; [| discriminate].
  apply pdiv_inv in E1. destruct E1 as [Hn1 ->].
  destruct (pdiv (Rabs (b1 - A / a2)) (b1 + A / a2)) as [t2 | e] eqn:E2;
    cbn [rbind]; [| discriminate].
  apply pdiv_inv in E2. destruct E2 as [Hn2 ->].
  pose proof (relative_difference_range a1 a2 Ha1 Ha2 Hn1) as Ht1.
  pose proof (relative_difference_range b1 (A / a2) Hb1 Hb2 Hn2) as Ht2.
  intro H. injection H as <-. lra.
Qed.

Lemma agreement_score_defined (a1 b1 A P : R) :
  0 <= a1 -> 0 <= b1 -> 0 < A ->
  exists s, agreement_score a1 b1 A P = Ret s.
Proof.
  intros Ha1 Hb1 HA.
  destruct (Rlt_dec (root_minus A P) 0) as [Hneg | Hpos].
  - exists 0. apply agreement_score_negative_root. right. exact Hneg.
  - assert (H2 : 0 <= root_minus A P) by lra.
    pose proof (root_plus_positive A P HA H2) as H1.
    pose proof (root_minus_le_plus A P) as Hle.
    assert (Hb2 : 0 < A / root_plus A P)
      by (apply Rdiv_lt_0_compat; assumption).
    pose proof (agreement_score_larger_root a1 b1 A P) as H.
    cbv zeta in H. rewrite Rmax_left in H by exact Hle.
    eexists. apply H; lra.
Qed.

(** X10: for non-negative moment sides and a positive area the agreement
    score is always defined, whatever the perimeter (no division fault, no
    refused square root), and it is in [0, 1]. *)
Theorem agreement_score_in_unit_interval (a1 b1 A P : R) :
  0 <= a1 -> 0 <= b1 -> 0 < A ->
  exists s, agreement_score a1 b1 A P = Ret s /\ 0 <= s <= 1.
Proof.
  intros Ha1 Hb1 HA.
  destruct (agreement_score_defined a1 b1 A P Ha1 Hb1 HA) as [s Hs].
  exists s. split; [exact Hs |].
  apply (agreement_score_range a1 b1 A P s); try assumption. lra.
Qed.

Lemma agreement_score_in_unit_interval_witness :
  exists s, agreement_score 4 3 20 14 = Ret s /\ 0 <= s <= 1.
Proof. apply agreement_score_in_unit_interval; lra. Defined.

(** X11: when the two estimates are those of one rectangle (sides [w] and
    [h] with [w >= h > 0], area [w * h], perimeter [2 * (w + h)]) the
    agreement score is 1. *)
Theorem agreement_score_of_exact_rectangle (w h : R) :
  0 < h -> h <= w ->
  agreement_score w h (w * h) (2 * (w + h)) = Ret 1.
Proof.
  intros Hh Hw.
  assert (Hs : sqrt (Rabs ((2 * (w + h)) ^ 2 - 16 * (w * h))) = 2 * (w - h)).
  { replace ((2 * (w + h)) ^ 2 - 16 * (w * h))
      with ((2 * (w - h)) * (2 * (w - h))) by ring.
    rewrite Rabs_pos_eq by nra. apply sqrt_of_square. lra. }
  assert (E1 : root_plus (w * h) (2 * (w + h)) = w)
    by (unfold root_plus; rewrite Hs; lra).
  assert (E2 : root_minus (w * h) (2 * (w + h)) = h)
    by (unfold root_minus; rewrite Hs; lra).
  pose proof (agreement_score_larger_root w h (w * h) (2 * (w + h))) as H.
  cbv zeta in H. rewrite E1, E2 in H. rewrite Rmax_left in H by exact Hw.
  replace (w * h / w) with h in H by (field; lra).
  rewrite H by lra. f_equal.
  replace (w - w) with 0 by lra. replace (h - h) with 0 by lra.
  rewrite Rabs_R0. unfold Rdiv. lra.
Qed.

Lemma agreement_score_of_exact_rectangle_witness :
  agreement_score 4 3 (4 * 3) (2 * (4 + 3)) = Ret 1.
Proof. apply agreement_score_of_exact_rectangle; lra. Defined.

(** ** The agreement method *)

Lemma agreement_method_found (env : Env) (image : loc) (method : string)
  (w : world) (cnt : contour) (rest : list contour) :
  is_r_a method = true ->
  findContours env (mem w image) RETR_EXTERNAL CHAIN_APPROX_SIMPLE
  = cnt :: rest ->
  fst (rectangularity env image method w)
  = (ab <- get_sides_based_on_moments (cv_moments env cnt) ;;
     R_A <- agreement_score (fst ab) (snd ab) (IZR (np_sum (mem w image)))
                            (arcLength env cnt) ;;
     Ret (Some R_A))%res.
Proof.
  intros Hm Hc. rewrite (rectangularity_agreement _ _ _ Hm).
  destruct (get_contour_first _ _ _ _ _ _ _ Hc) as (w0 & E & Hmem & _).
  rewrite (bind_ret_eq _ _ _ _ _ E).
  unfold bind, lift, load, ret. rewrite Hmem.
  destruct (get_sides_based_on_moments (cv_moments env cnt)) as [[a b] | e];
    cbn [rbind fst snd]; [| reflexivity].
  destruct (agreement_score a b (IZR (np_sum (mem w image)))
                            (arcLength env cnt)); reflexivity.
Qed.

(** X12: on a mask whose pixels sum to a positive number, once a contour is
    found and its side estimate is defined, the agreement method returns a
    score in [0, 1]: the division by [a2] and the two relative differences
    never fault. *)
Theorem agreement_method_in_unit_interval (env : Env) (image : loc)
  (method : string) (w : world) (cnt : contour) (rest : list contour)
  (a1 b1 : R) :
  is_r_a method = true ->
  findContours env (mem w image) RETR_EXTERNAL CHAIN_APPROX_SIMPLE
  = cnt :: rest ->
  get_sides_based_on_moments (cv_moments env cnt) = Ret (a1, b1) ->
  (0 < np_sum (mem w image))%Z ->
  exists s,
    fst (rectangularity env image method w) = Ret (Some s) /\ 0 <= s <= 1.
Proof.
  intros Hm Hc Hs Hsum.
  rewrite (agreement_method_found _ _ _ _ _ _ Hm Hc). rewrite Hs.
  cbn [rbind fst snd].
  destruct (get_sides_nonneg _ _ _ Hs) as [Ha Hb].
  assert (HA : 0 < IZR (np_sum (mem w image))) by (apply IZR_lt; exact Hsum).
  destruct (agreement_score_defined a1 b1 _ (arcLength env cnt) Ha Hb HA)
    as [s E].
  exists s. rewrite E. cbn [rbind]. split; [reflexivity |].
  apply (agreement_score_range a1 b1 _ _ s Ha Hb (Rlt_le _ _ HA) E).
Qed.

Lemma agreement_method_in_unit_interval_witness :
  exists s,
    fst (rectangularity block_env 0%nat "Agreement method" (world_with block))
    = Ret (Some s) /\ 0 <= s <= 1.
Proof.
  apply (agreement_method_in_unit_interval block_env 0%nat "Agreement method"
           (world_with block) block_contour [] 4 3).
  - reflexivity.
  - reflexivity.
  - exact sides_of_rectangle_4x3.
  - reflexivity.
Defined.

(** ** The moments method *)

(** X13: when the helper reports a positive [m00] and a non-negative
    [mu22], the moments method returns a score in [0, 1] and changes
    neither the store nor the output. *)
Theorem moments_method_in_unit_interval (env : Env) (image : loc)
  (method : string) (w : world) :
  is_r_m method = true ->
  0 < m00 (moments env (mem w image)) ->
  0 <= mu22 (moments env (mem w image)) ->
  exists s,
    rectangularity env image method w = (Ret (Some s), w) /\ 0 <= s <= 1.
Proof.
  intros Hm H00 H22. rewrite (rectangularity_moments _ _ _ _ Hm).
  set (m := moments env (mem w image)) in *.
  assert (Hcube : 0 < m00 m ^ 3) by (apply pow_lt; exact H00).
  assert (Hraw : 0 <= 144 * mu22 m / m00 m ^ 3).
  { unfold Rdiv. apply Rmult_le_pos; [lra |].
    left. apply Rinv_0_lt_compat. exact Hcube. }
  unfold moments_score. rewrite pdiv_defined by lra. cbn [rbind].
  destruct (Rle_dec (144 * mu22 m / m00 m ^ 3) 1) as [Hle | Hgt].
  - eexists. split; [reflexivity | lra].
  - rewrite pdiv_defined by lra. eexists. split; [reflexivity |].
    assert (Hinv : 0 < / (144 * mu22 m / m00 m ^ 3))
      by (apply Rinv_0_lt_compat; lra).
    assert (Hlt : / (144 * mu22 m / m00 m ^ 3) < / 1)
      by (apply Rinv_lt_contravar; lra).
    rewrite Rinv_1 in Hlt. unfold Rdiv at 1 3. lra.
Qed.

Lemma moments_method_in_unit_interval_witness :
  exists s,
    rectangularity (single_pixel_env no_rotation) 0%nat "Moments method"
                   (world_with four_corners)
    = (Ret (Some s), world_with four_corners) /\ 0 <= s <= 1.
Proof.
  destruct region_moments_four_corners as [E00 E22].
  apply moments_method_in_unit_interval.
  - reflexivity.
  - cbn [moments single_pixel_env mem world_with]. rewrite E00. lra.
  - cbn [moments single_pixel_env mem world_with]. rewrite E22. lra.
Defined.

(** ** The bounding-rectangle areas *)

Lemma nonneg_row_sums (covered : Z -> bool) (c : Z) (row : list Z) :
  forallb (fun p => (0 <=? p)%Z) row = true ->
  (0 <= sumZ row)%Z /\ (0 <= sumZ (paint_row covered 1 c row))%Z.
Proof.
  revert c. induction row as [| p ps IH]; intros c H.
  - cbn. lia.
  - cbn [forallb] in H. apply andb_true_iff in H. destruct H as [Hp Hps].
    apply Z.leb_le in Hp. specialize (IH (c + 1)%Z Hps).
    cbn [paint_row]. rewrite !sumZ_cons. destruct (covered c); lia.
Qed.

Lemma foreground_row_sums (covered : Z -> bool) (c : Z) (row : list Z) :
  forallb (fun p => (0 <=? p)%Z) row = true ->
  forallb (Z.eqb 0) row = false ->
  (0 < sumZ row)%Z /\ (0 < sumZ (paint_row covered 1 c row))%Z.
Proof.
  revert c. induction row as [| p ps IH]; intros c H Hfg.
  - discriminate Hfg.
  - cbn [forallb] in H, Hfg. apply andb_true_iff in H. destruct H as [Hp Hps].
    apply Z.leb_le in Hp.
    pose proof (nonneg_row_sums covered (c + 1)%Z ps Hps) as Hnn.
    cbn [paint_row]. rewrite !sumZ_cons.
    destruct (Z.eqb_spec 0 p) as [E | N].
    + cbn [andb] in Hfg. specialize (IH (c + 1)%Z Hps Hfg).
      destruct (covered c); lia.
    + destruct (covered c); lia.
Qed.

Lemma nonneg_image_sums (covered : Z -> Z -> bool) (r : Z) (img : image) :
  nonneg_pixels img = true ->
  (0 <= np_sum img)%Z /\ (0 <= np_sum (paint_rows covered 1 r img))%Z.
Proof.
  unfold np_sum, nonneg_pixels. revert r.
  induction img as [| row rest IH]; intros r H.
  - cbn. lia.
  - cbn [forallb] in H. apply andb_true_iff in H. destruct H as [Hrow Hrest].
    specialize (IH (r + 1)%Z Hrest).
    pose proof (nonneg_row_sums (covered r) 0%Z row Hrow).
    cbn [paint_rows map]. rewrite !sumZ_cons. lia.
Qed.

Lemma foreground_image_sums (covered : Z -> Z -> bool) (r : Z) (img : image) :
  nonneg_pixels img = true -> no_foreground img = false ->
  (0 < np_sum img)%Z /\ (0 < np_sum (paint_rows covered 1 r img))%Z.
Proof.
  unfold np_sum, nonneg_pixels, no_foreground. revert r.
  induction img as [| row rest IH]; intros r H Hfg.
  - discriminate Hfg.
  - cbn [forallb] in H, Hfg. apply andb_true_iff in H. destruct H as [Hrow Hrest].
    pose proof (nonneg_row_sums (covered r) 0%Z row Hrow) as Hnr.
    pose proof (nonneg_image_sums covered (r + 1)%Z rest Hrest) as Hni.
    unfold np_sum in Hni.
    cbn [paint_rows map]. rewrite !sumZ_cons.
    destruct (forallb (Z.eqb 0) row) eqn:E.
    + cbn [andb] in Hfg. specialize (IH (r + 1)%Z Hrest Hfg). lia.
    + pose proof (foreground_row_sums (covered r) 0%Z row Hrow E). lia.
Qed.

(** X14: on a mask of non-negative pixels with some foreground in which a
    contour is found, the bounding-rectangle ratio never divides by zero
    and is a positive number: the painted copy keeps a positive sum. *)
Theorem mbr_ratio_is_positive (env : Env) (image : loc) (method : string)
  (w : world) (cnt : contour) (rest : list contour) :
  is_mbr method = true ->
  nonneg_pixels (mem w image) = true ->
  no_foreground (mem w image) = false ->
  findContours env (mem w image) RETR_EXTERNAL CHAIN_APPROX_SIMPLE
  = cnt :: rest ->
  exists R_B,
    fst (rectangularity env image method w) = Ret (Some R_B) /\ 0 < R_B.
Proof.
  intros Hm Hnn Hfg Hc.
  rewrite (rectangularity_mbr _ _ _ Hm).
  destruct (get_mbr_areas_found _ _ _ _ _ Hc) as (w' & E & _).
  rewrite (bind_ret_eq _ _ _ _ _ E). cbn [fst snd].
  destruct (foreground_image_sums (polygon env (mbr_box env cnt)) 0%Z _
              Hnn Hfg) as [Hr Hb].
  fold (paint (polygon env (mbr_box env cnt)) 1 (mem w image)) in Hb.
  apply IZR_lt in Hr. apply IZR_lt in Hb.
  unfold bind, lift. rewrite pdiv_defined by lra. cbn [fst ret].
  eexists. split; [reflexivity |]. apply Rdiv_lt_0_compat; assumption.
Qed.

Lemma mbr_ratio_is_positive_witness :
  exists R_B,
    fst (rectangularity (single_pixel_env no_rotation) 0%nat "mbr"
                        (world_with bright_dot)) = Ret (Some R_B) /\
    0 < R_B.
Proof.
  apply (mbr_ratio_is_positive (single_pixel_env no_rotation) 0%nat "mbr"
           (world_with bright_dot) [(1, 1)%Z] []); reflexivity.
Defined.



(** ** The clipped region *)

Lemma nonneg_firstn (n : nat) (l : list Z) :
  forallb (fun p => (0 <=? p)%Z) l = true ->
  forallb (fun p => (0 <=? p)%Z) (firstn n l) = true /\
  (0 <= sumZ (firstn n l) <= sumZ l)%Z.
Proof.
  revert n. induction l as [| p ps IH]; intros n H.
  - destruct n; cbn; split; (reflexivity || lia).
  - cbn [forallb] in H. apply andb_true_iff in H. destruct H as [Hp Hps].
    pose proof (IH 0%nat Hps) as [_ H0]. cbn [firstn] in H0.
    destruct n as [| n].
    + cbn [firstn]. rewrite sumZ_cons. apply Z.leb_le in Hp.
      split; [reflexivity |]. cbn [sumZ fold_right] in *. lia.
    + destruct (IH n Hps) as [Hf Hs]. cbn [firstn forallb].
      rewrite Hp, Hf. rewrite !sumZ_cons. apply Z.leb_le in Hp.
      split; [reflexivity | lia].
Qed.

Lemma nonneg_skipn (n : nat) (l : list Z) :
  forallb (fun p => (0 <=? p)%Z) l = true ->
  forallb (fun p => (0 <=? p)%Z) (skipn n l) = true /\
  (0 <= sumZ (skipn n l) <= sumZ l)%Z.
Proof.
  revert n. induction l as [| p ps IH]; intros n H.
  - destruct n; cbn; split; (reflexivity || lia).
  - destruct n as [| n].
    + cbn [skipn]. split; [exact H |].
      pose proof (nonneg_firstn (List.length (p :: ps)) (p :: ps) H) as [_ Hs].
      lia.
    + cbn [forallb] in H. apply andb_true_iff in H. destruct H as [Hp Hps].
      destruct (IH n Hps) as [Hf Hs]. cbn [skipn]. rewrite sumZ_cons.
      apply Z.leb_le in Hp. split; [exact Hf | lia].
Qed.

Lemma nonneg_slice (l : list Z) (lo hi : Z) :
  forallb (fun p => (0 <=? p)%Z) l = true ->
  (0 <= sumZ (slice l lo hi) <= sumZ l)%Z.
Proof.
  intro H. unfold slice.
  destruct (nonneg_skipn (Z.to_nat (slice_index (Z.of_nat (List.length l)) lo))
                         l H) as [Hs Hle].
  destruct (nonneg_firstn
              (Z.to_nat (slice_index (Z.of_nat (List.length l)) hi
                         - slice_index (Z.of_nat (List.length l)) lo))
              _ Hs) as [_ Hle'].
  lia.
Qed.

Lemma nonneg_row_sum_list (img : image) :
  nonneg_pixels img = true ->
  forallb (fun p => (0 <=? p)%Z) (map sumZ img) = true.
Proof.
  unfold nonneg_pixels. induction img as [| row rest IH]; intro H.
  - reflexivity.
  - cbn [forallb] in H. apply andb_true_iff in H. destruct H as [Hrow Hrest].
    cbn [map forallb]. rewrite (IH Hrest), andb_true_r.
    apply Z.leb_le. apply (nonneg_row_sums (fun _ => false) 0%Z row Hrow).
Qed.

Lemma slice_map {A B} (f : A -> B) (l : list A) (lo hi : Z) :
  map f (slice l lo hi) = slice (map f l) lo hi.
Proof.
  unfold slice. rewrite length_map, skipn_map, firstn_map. reflexivity.
Qed.

Lemma nonneg_column_slices (img : image) (c0 c1 : Z) :
  nonneg_pixels img = true ->
  (0 <= np_sum (map (fun row => slice row c0 c1) img) <= np_sum img)%Z.
Proof.
  unfold np_sum, nonneg_pixels. induction img as [| row rest IH]; intro H.
  - cbn. lia.
  - cbn [forallb] in H. apply andb_true_iff in H. destruct H as [Hrow Hrest].
    specialize (IH Hrest). pose proof (nonneg_slice row c0 c1 Hrow).
    cbn [map]. rewrite !sumZ_cons. lia.
Qed.

Lemma forallb_firstn {A} (f : A -> bool) (n : nat) (l : list A) :
  forallb f l = true -> forallb f (firstn n l) = true.
Proof.
  revert n. induction l as [| a l IH]; intros [| n] H; try reflexivity.
  cbn [forallb] in H. apply andb_true_iff in H. destruct H as [Ha Hl].
  cbn [firstn forallb]. rewrite Ha, (IH n Hl). reflexivity.
Qed.

Lemma forallb_skipn {A} (f : A -> bool) (n : nat) (l : list A) :
  forallb f l = true -> forallb f (skipn n l) = true.
Proof.
  revert n. induction l as [| a l IH]; intros [| n] H; try reflexivity.
  - exact H.
  - cbn [forallb] in H. apply andb_true_iff in H. destruct H as [Ha Hl].
    cbn [skipn]. exact (IH n Hl).
Qed.

Lemma nonneg_pixels_slice (img : image) (r0 r1 : Z) :
  nonneg_pixels img = true -> nonneg_pixels (slice img r0 r1) = true.
Proof.
  unfold nonneg_pixels, slice. intro H.
  apply forallb_firstn. apply forallb_skipn. exact H.
Qed.

(** X16: on a mask of non-negative pixels the clipped region [A2] is a part
    of the complete region [A1]: [0 <= A2 <= A1], so the difference
    [D = A1 - A2] of the two descriptors is never negative. *)
Theorem clipped_region_is_part_of_region (img : image) (cnt : contour) :
  nonneg_pixels img = true ->
  (0 <= np_sum (box_image img cnt) <= np_sum img)%Z.
Proof.
  intro H. unfold box_image.
  destruct (boundingRect cnt) as [[[x y] bw] bh]. unfold slice2.
  pose proof (nonneg_column_slices (slice img x bw) y bh
                (nonneg_pixels_slice img x bw H)) as Hcols.
  assert (Hrows : (np_sum (slice img x bw) <= np_sum img)%Z).
  { unfold np_sum. rewrite slice_map.
    apply (nonneg_slice (map sumZ img) x bw (nonneg_row_sum_list img H)). }
  lia.
Qed.

Lemma clipped_region_is_part_of_region_witness :
  (0 <= np_sum (box_image block block_contour) <= np_sum block)%Z.
Proof. apply clipped_region_is_part_of_region. reflexivity. Defined.

Lemma mbr_ratio_of_zero_one_mask_witness :
  exists R_B,
    fst (rectangularity (single_pixel_env no_rotation) 0%nat "r_b"
                        (world_with centre_dot)) = Ret (Some R_B) /\
    0 < R_B <= 1.
Proof.
  apply (mbr_ratio_of_zero_one_mask (single_pixel_env no_rotation) 0%nat
           "r_b" (world_with centre_dot) [(1, 1)%Z] []); reflexivity.
Defined.

(** ** The dispatch on the method name *)

(** X17: the short codes and the descriptive name of a method run the same
    computation. *)
Theorem aliases_run_the_same_method (env : Env) (image : loc)
  (m m' : string) :
  same_method m m' = true ->
  rectangularity env image m = rectangularity env image m'.
Proof.
  unfold same_method. intro H.
  repeat match type of H with
         | (_ || _)%bool = true => apply orb_true_iff in H; destruct H as [H | H]
         end;
    apply andb_true_iff in H; destruct H as [H H'];
    method_cases H; method_cases H'; reflexivity.
Qed.

Lemma aliases_run_the_same_method_witness :
  rectangularity (single_pixel_env no_rotation) 0%nat "mbr"
  = rectangularity (single_pixel_env no_rotation) 0%nat
                   "Minimum Bounding Rectangle (MBR)".
Proof. apply aliases_run_the_same_method. reflexivity. Defined.

Lemma recognised_returns_some (env : Env) (image : loc) (method : string)
  (w : world) :
  recognised method = true ->
  fst (rectangularity env image method w) <> Ret None.
Proof.
  unfold recognised. intro H.
  apply orb_true_iff in H. destruct H as [H | Hm].
  - apply orb_true_iff in H. destruct H as [H | Ha].
    + apply orb_true_iff in H. destruct H as [H | Hrr].
      * apply orb_true_iff in H. destruct H as [Hmbr | Hrd].
        -- rewrite (rectangularity_mbr _ _ _ Hmbr).
           unfold bind, lift, ret. run_cases; cbn [fst]; discriminate.
        -- rewrite rectangularity_two_orientations
             by (rewrite Hrd; reflexivity).
           rewrite two_orientations_run. unfold bind, ret.
           run_cases; cbn [fst]; discriminate.
      * rewrite rectangularity_two_orientations
          by (rewrite Hrr; apply orb_true_r).
        rewrite two_orientations_run. unfold bind, ret.
        run_cases; cbn [fst]; discriminate.
    + rewrite (rectangularity_agreement _ _ _ Ha).
      unfold bind, lift, load, ret. run_cases; cbn [fst]; discriminate.
  - rewrite (rectangularity_moments _ _ _ _ Hm). cbn [fst].
    destruct (moments_score _); discriminate.
Qed.

(** X22: [rectangularity] returns [None] exactly for a method name it does
    not recognise; under a recognised name it returns a number or raises. *)
Theorem none_exactly_for_unrecognised (env : Env) (image : loc)
  (method : string) (w : world) :
  fst (rectangularity env image method w) = Ret None <->
  recognised method = false.
Proof.
  split.
  - intro H. destruct (recognised method) eqn:R; [| reflexivity].
    exfalso. exact (recognised_returns_some env image method w R H).
  - unfold recognised. intro H.
    repeat match type of H with
           | (_ || _)%bool = false =>
             apply orb_false_iff in H;
             let H' := fresh "H" in destruct H as [H H']
           end.
    unfold rectangularity.
    repeat match goal with
           | E : ?b = false |- context [if ?b then _ else _] => rewrite E
           end.
    reflexivity.
Qed.

(** X23: the five names the plotting script passes are recognised, select
    the five different branches in the order MBR, discrepancy, robust MBR,
    agreement, moments, and so never make [rectangularity] return [None]
    into the array of scores. *)
Theorem plot_methods_are_recognised (env : Env) (image : loc) (w : world) :
  map branches methods
  = [[true; false; false; false; false];
     [false; true; false; false; false];
     [false; false; true; false; false];
     [false; false; false; true; false];
     [false; false; false; false; true]] /\
  forall m, In m methods ->
            recognised m = true /\
            fst (rectangularity env image m w) <> Ret None.
Proof.
  split; [reflexivity |].
  intros m Hin.
  assert (R : recognised m = true).
  { unfold methods in Hin. cbn [In] in Hin.
    repeat (destruct Hin as [<- | Hin]; [reflexivity |]). contradiction. }
  split; [exact R | apply recognised_returns_some; exact R].
Qed.

Lemma plot_methods_are_recognised_witness :
  recognised "Robust MBR" = true /\
  fst (rectangularity (single_pixel_env no_rotation) 0%nat "Robust MBR"
                      (world_with centre_dot)) <> Ret None.
Proof.
  apply (proj2 (plot_methods_are_recognised (single_pixel_env no_rotation)
                  0%nat (world_with centre_dot))).
  cbn. tauto.
Defined.

(** ** What is printed *)

Lemma logs_only_silent {A} (c : py A) :
  (forall w, stdout (snd (c w)) = stdout w) -> logs_only c.
Proof.
  intros H w. exists []. rewrite H, app_nil_r. split; [reflexivity | constructor].
Qed.

Lemma logs_only_ret {A} (a : A) : logs_only (ret a).
Proof. apply logs_only_silent. reflexivity. Qed.

Lemma logs_only_raise {A} (e : exn) : logs_only (@raise A e).
Proof. apply logs_only_silent. reflexivity. Qed.

Lemma logs_only_lift {A} (c : result A) : logs_only (lift c).
Proof. apply logs_only_silent. reflexivity. Qed.

Lemma logs_only_load (l : loc) : logs_only (load l).
Proof. apply logs_only_silent. reflexivity. Qed.

Lemma logs_only_alloc (img : image) : logs_only (alloc img).
Proof. apply logs_only_silent. reflexivity. Qed.

Lemma logs_only_store (l : loc) (img : image) : logs_only (store l img).
Proof. apply logs_only_silent. reflexivity. Qed.

Lemma logs_only_print_blob : logs_only (print "Found more than one blob.").
Proof.
  intro w. exists [blob_message]. split; [reflexivity |].
  constructor; [left; reflexivity | constructor].
Qed.

Lemma logs_only_print_wrong : logs_only (print "Wrong method.").
Proof.
  intro w. exists [wrong_method_message]. split; [reflexivity |].
  constructor; [right; reflexivity | constructor].
Qed.

Lemma logs_only_bind {A B} (c : py A) (k : A -> py B) :
  logs_only c -> (forall a, logs_only (k a)) -> logs_only (bind c k).
Proof.
  intros Hc Hk w. unfold bind. destruct (Hc w) as (added & E & Hall).
  destruct (c w) as [[a | e] w']; cbn [snd] in *.
  - destruct (Hk a w') as (added' & E' & Hall').
    exists (added ++ added'). split.
    + rewrite E', E, app_assoc. reflexivity.
    + apply Forall_app. split; assumption.
  - exists added. split; assumption.
Qed.

Create HintDb logs_only.
#[local] Hint Resolve logs_only_ret logs_only_raise logs_only_lift
  logs_only_load logs_only_alloc logs_only_store logs_only_print_blob
  logs_only_print_wrong : logs_only.

Ltac logs_only_steps :=
  repeat first
    [ solve [auto with logs_only]
    | apply logs_only_bind; [| intros]
    | match goal with
      | |- logs_only (if ?b then _ else _) => destruct b
      | |- logs_only (match ?x with _ => _ end) => destruct x
      end ].

Lemma logs_only_get_contour (env : Env) (l : loc) (mode : retrieval_mode)
  (method : approx_method) : logs_only (get_contour env l mode method).
Proof. unfold get_contour. logs_only_steps. Qed.

#[local] Hint Resolve logs_only_get_contour : logs_only.

Lemma logs_only_get_mbr_areas (env : Env) (l : loc) :
  logs_only (get_mbr_areas env l).
Proof. unfold get_mbr_areas, copy, fillConvexPoly. logs_only_steps. Qed.

Lemma logs_only_get_rectangular_discrepancy_descriptor (env : Env) (l : loc) :
  logs_only (get_rectangular_discrepancy_descriptor env l).
Proof. unfold get_rectangular_discrepancy_descriptor. logs_only_steps. Qed.

#[local] Hint Resolve logs_only_get_mbr_areas
  logs_only_get_rectangular_discrepancy_descriptor : logs_only.

Lemma logs_only_get_robust_mbr_discrepancy (env : Env) (l : loc) :
  logs_only (get_robust_mbr_discrepancy env l).
Proof. unfold get_robust_mbr_discrepancy. logs_only_steps. Qed.

#[local] Hint Resolve logs_only_get_robust_mbr_discrepancy : logs_only.

(** X18: whatever the method and outcome, [rectangularity] only adds lines
    to the output, and every line it adds is "Found more than one blob." or
    "Wrong method.". *)
Theorem prints_only_its_two_messages (env : Env) (image : loc)
  (method : string) (w : world) :
  exists added,
    stdout (snd (rectangularity env image method w)) = stdout w ++ added /\
    Forall (fun s => s = blob_message \/ s = wrong_method_message) added.
Proof.
  revert w. change (logs_only (rectangularity env image method)).
  unfold rectangularity. logs_only_steps.
Qed.

(** ** What only reads *)

Lemma reads_only_ret {A} (a : A) : reads_only (ret a).
Proof. intro w. split; reflexivity. Qed.

Lemma reads_only_raise {A} (e : exn) : reads_only (@raise A e).
Proof. intro w. split; reflexivity. Qed.

Lemma reads_only_lift {A} (c : result A) : reads_only (lift c).
Proof. intro w. split; reflexivity. Qed.

Lemma reads_only_load (l : loc) : reads_only (load l).
Proof. intro w. split; reflexivity. Qed.

Lemma reads_only_print (s : string) : reads_only (print s).
Proof. intro w. split; reflexivity. Qed.

Lemma reads_only_bind {A B} (c : py A) (k : A -> py B) :
  reads_only c -> (forall a, reads_only (k a)) -> reads_only (bind c k).
Proof.
  intros Hc Hk w. unfold bind. specialize (Hc w).
  destruct (c w) as [[a | e] w']; cbn [snd] in *.
  - destruct (Hk a w') as [Hm Hb]. destruct Hc as [Hm' Hb'].
    split; congruence.
  - exact Hc.
Qed.

Create HintDb reads_only.
#[local] Hint Resolve reads_only_ret reads_only_raise reads_only_lift
  reads_only_load reads_only_print : reads_only.

Ltac reads_only_steps :=
  repeat first
    [ solve [auto with reads_only]
    | apply reads_only_bind; [| intros]
    | match goal with
      | |- reads_only (if ?b then _ else _) => destruct b
      | |- reads_only (match ?x with _ => _ end) => destruct x
      end ].

Lemma reads_only_get_contour (env : Env) (l : loc) (mode : retrieval_mode)
  (method : approx_method) : reads_only (get_contour env l mode method).
Proof. unfold get_contour. reads_only_steps. Qed.

#[local] Hint Resolve reads_only_get_contour : reads_only.

(** X19: contour extraction, the rectangular-discrepancy descriptor, the
    agreement method, the moments method and the path of an unrecognised
    name write to no buffer and allocate none. *)
Theorem only_copies_touch_the_store (env : Env) (image : loc)
  (method : string) (mode : retrieval_mode) (approx : approx_method) :
  reads_only (get_contour env image mode approx) /\
  reads_only (get_rectangular_discrepancy_descriptor env image) /\
  (is_mbr method || is_r_d method || is_r_r method = false ->
   reads_only (rectangularity env image method)).
Proof.
  split; [apply reads_only_get_contour |]. split.
  - unfold get_rectangular_discrepancy_descriptor. reads_only_steps.
  - intro H. apply orb_false_iff in H. destruct H as [H Hrr].
    apply orb_false_iff in H. destruct H as [Hmbr Hrd].
    unfold rectangularity. rewrite Hmbr, Hrd, Hrr. reads_only_steps.
Qed.

Lemma only_copies_touch_the_store_witness :
  reads_only (rectangularity (single_pixel_env no_rotation) 0%nat "r_a").
Proof.
  apply (proj2 (proj2 (only_copies_touch_the_store
                         (single_pixel_env no_rotation) 0%nat "r_a"
                         RETR_EXTERNAL CHAIN_APPROX_SIMPLE))).
  reflexivity.
Defined.

(** ** The diagnostic of the robust descriptor *)

(** X21: [get_robust_mbr_discrepancy] extracts the contour twice, once
    itself and once in [get_mbr_areas]: on a mask with more than one
    contour the diagnostic is printed exactly twice, whatever the
    outcome. *)
Theorem robust_descriptor_prints_twice (env : Env) (l : loc) (w : world)
  (c1 c2 : contour) (rest : list contour) :
  findContours env (mem w l) RETR_EXTERNAL CHAIN_APPROX_SIMPLE
  = c1 :: c2 :: rest ->
  stdout (snd (get_robust_mbr_discrepancy env l w))
  = stdout w ++ [blob_message; blob_message].
Proof.
  intro H.
  unfold get_robust_mbr_discrepancy, get_mbr_areas, get_contour, copy,
    fillConvexPoly, bind, load, alloc, store, print, lift, ret.
  cbn [mem brk stdout fst snd]. rewrite H. cbn [List.length Nat.ltb Nat.leb].
  cbn [mem brk stdout fst snd]. rewrite H. cbn [List.length Nat.ltb Nat.leb].
  cbn [mem brk stdout fst snd].
  run_cases; cbn [snd stdout]; rewrite <- app_assoc; reflexivity.
Qed.

Lemma robust_descriptor_prints_twice_witness :
  stdout (snd (get_robust_mbr_discrepancy two_dots_env 0%nat
                                          (world_with two_dots)))
  = [blob_message; blob_message].
Proof.
  exact (robust_descriptor_prints_twice two_dots_env 0%nat
           (world_with two_dots) [(2, 0)%Z] [(0, 0)%Z] [] eq_refl).
Defined.

(** ** A rectangle that covers only foreground *)

(** X20: when the pixels the bounding rectangle covers are foreground
    pixels of value 1 already, so that painting changes nothing, and the
    mask has a positive sum, the bounding-rectangle ratio is exactly 1. *)
Theorem mbr_ratio_of_filled_rectangle (env : Env) (image : loc)
  (method : string) (w : world) (cnt : contour) (rest : list contour) :
  is_mbr method = true ->
  findContours env (mem w image) RETR_EXTERNAL CHAIN_APPROX_SIMPLE
  = cnt :: rest ->
  paint (polygon env (mbr_box env cnt)) 1 (mem w image) = mem w image ->
  (0 < np_sum (mem w image))%Z ->
  fst (rectangularity env image method w) = Ret (Some 1).
Proof.
  intros Hm Hc Hpaint Hsum.
  rewrite (rectangularity_mbr _ _ _ Hm).
  destruct (get_mbr_areas_found _ _ _ _ _ Hc) as (w' & E & _).
  rewrite Hpaint in E.
  rewrite (bind_ret_eq _ _ _ _ _ E). cbn [fst snd].
  apply IZR_lt in Hsum.
  unfold bind, lift. rewrite pdiv_defined by lra. cbn [fst ret].
  do 2 f_equal. field. lra.
Qed.

Lemma mbr_ratio_of_filled_rectangle_witness :
  fst (rectangularity (single_pixel_env no_rotation) 0%nat "mbr"
                      (world_with centre_dot)) = Ret (Some 1).
Proof.
  apply (mbr_ratio_of_filled_rectangle (single_pixel_env no_rotation) 0%nat
           "mbr" (world_with centre_dot) [(1, 1)%Z] []).
  - reflexivity.
  - reflexivity.
  - rewrite single_pixel_box by lia. reflexivity.
  - reflexivity.
Defined.
